(** * AWS Toolkit for VS Code: chat history, streaming cancellation,
      payload size limits and EC2 key clean-up

    A shallow embedding of four pieces of the TypeScript sources:

    - [ChatSession] (codewhispererChat/clients/chat/v0/chat.ts):
      [pushToChatHistory], [formatChatHistoryMessage], [fixHistory] and the
      [chatHistory] accessors;
    - [QCliStreamingHandler] (amazonqTest/chat/streaming/qCliStreamingHandler.ts):
      [processUserPrompt] and [cancelStreaming];
    - [ZipUtil] (codewhisperer/util/zipUtil.ts): [reachSizeLimit],
      [willReachSizeLimit], [processTextFile], [zipFile], [rewriteDiff];
    - [getRemoveLinesCommand] (awsService/ec2/model.ts).

    JavaScript exceptions are values of [Exn]; a method that can throw
    returns a [Result].  Objects that the code mutates in place (the history
    array, the next user message, the counters of [ZipUtil]) are threaded
    explicitly: a function returns the new value of everything it may have
    written, also when it throws.  A character of a string stands for one
    code unit; the code compares characters with ASCII characters only.
    What the code gets from the editor, the file system, the network or a
    random source is an argument of the function that models it. *)

From Stdlib Require Import ZArith Lia Ascii.
From stdpp Require Import base option list strings gmap.

(** ** Exceptions and results *)

(** The exceptions the embedded code can end with.  [RangeError] is the
    engine's, [Error] is the built-in class, the others are classes of the
    toolkit; [IOError] stands for the rejection of a promise of the editor
    or of the file system. *)
Inductive Exn : Type :=
  | RangeError (msg : string)
  | ToolkitError (msg : string)
  | Error (msg : string)
  | NoActiveFileError
  | FileSizeExceededError
  | ProjectSizeExceededError
  | IOError.

Inductive Result (A : Type) : Type :=
  | Ok (a : A)
  | Throw (e : Exn).
Arguments Ok {A} a.
Arguments Throw {A} e.

(** The properties of an object literal that the code copies with a spread
    ([...obj]) without looking at them: name and serialised value. *)
Definition Fields : Type := list (string * string).

(** ** The chat session *)

Module Chat.

(** *** Messages (the shapes of the streaming client's types that the
    code reads or writes) *)

Record ToolUse : Type := mkToolUse {
  toolUseId : option string;
  tu_name : option string;
  tu_input : option string
}.

Record ToolResultContentBlock : Type := mkContentBlock {
  cb_type : option string;
  cb_text : option string
}.

Record ToolResult : Type := mkToolResult {
  tr_toolUseId : option string;
  tr_content : option (list ToolResultContentBlock);
  tr_status : option string
}.

Record UserInputMessageContext : Type := mkContext {
  toolResults : option (list ToolResult);
  tools : option (list string);
  ctx_rest : Fields
}.

Record UserInputMessage : Type := mkUserInputMessage {
  content : option string;
  userInputMessageContext : option UserInputMessageContext;
  uim_rest : Fields
}.

Record AssistantResponseMessage : Type := mkAssistantResponseMessage {
  arm_content : option string;
  toolUses : option (list ToolUse);
  arm_rest : Fields
}.

(** [ChatMessage] is the client's tagged union: exactly one member is set. *)
Inductive ChatMessage : Type :=
  | userInputMessage (m : UserInputMessage)
  | assistantResponseMessage (m : AssistantResponseMessage)
  | unknownMember (tag : string).

Record ChatSession : Type := mkChatSession {
  sessionId : option string;
  _toolUse : option ToolUse;
  _chatHistory : list ChatMessage
}.

(** *** Accessors *)

(** [get chatHistory()]. *)
Definition chatHistory (this : ChatSession) : list ChatMessage :=
  _chatHistory this.

(** The exception of the engine when the call stack is exhausted. *)
Definition stackOverflow : Exn := RangeError "Maximum call stack size exceeded".

(** [set chatHistory(chatHistory) { this.chatHistory = chatHistory }]: the
    body assigns to the accessor itself, so it is a call of the setter.
    [stack] is the number of frames left on the call stack; the engine
    raises a [RangeError] when none is left. *)
Fixpoint set_chatHistory (stack : nat) (this : ChatSession)
    (h : list ChatMessage) : Result unit * ChatSession :=
  match stack with
  | O => (Throw stackOverflow, this)
  | S stack' => set_chatHistory stack' this h
  end.

(** *** pushToChatHistory *)

(** [{ ...ctx, tools: undefined }], where [ctx] may be [undefined]. *)
Definition spreadContextWithoutTools (ctx : option UserInputMessageContext)
    : UserInputMessageContext :=
  match ctx with
  | Some c => {| toolResults := toolResults c; tools := None; ctx_rest := ctx_rest c |}
  | None => {| toolResults := None; tools := None; ctx_rest := [] |}
  end.

Definition formatChatHistoryMessage (message : ChatMessage) : ChatMessage :=
  match message with
  | userInputMessage u =>
      userInputMessage
        {| content := content u;
           userInputMessageContext :=
             Some (spreadContextWithoutTools (userInputMessageContext u));
           uim_rest := uim_rest u |}
  | _ => message
  end.

Definition pushToChatHistory (this : ChatSession) (message : option ChatMessage)
    : ChatSession :=
  match message with
  | None => this
  | Some m =>
      {| sessionId := sessionId this;
         _toolUse := _toolUse this;
         _chatHistory := _chatHistory this ++ [formatChatHistoryMessage m] |}
  end.

(** *** fixHistory *)

Definition MAX_CONVERSATION_STATE_HISTORY_LEN : nat := 100.

(** [Array.prototype.findIndex]: the index of the first element that
    satisfies [p], and -1 when there is none. *)
Fixpoint findIndex {A} (p : A -> bool) (l : list A) : Z :=
  match l with
  | [] => (-1)%Z
  | x :: l' =>
      if p x then 0%Z
      else let i := findIndex p l' in
           if (i =? -1)%Z then (-1)%Z else (i + 1)%Z
  end.

(** [arr.slice(start)] for a start index that is not negative. *)
Definition slice {A} (start : Z) (l : list A) : list A :=
  drop (Z.to_nat start) l.

(** [!ctx?.toolResults || ctx.toolResults.length === 0]. *)
Definition noToolResults (ctx : option UserInputMessageContext) : bool :=
  match ctx with
  | Some c =>
      match toolResults c with
      | Some (_ :: _) => false
      | _ => true
      end
  | None => true
  end.

(** The predicate given to [findIndex] in [fixHistory]. *)
Definition isValidStart (message : ChatMessage) : bool :=
  match message with
  | userInputMessage u =>
      noToolResults (userInputMessageContext u)
      && negb (bool_decide (content u = Some ""))
  | _ => false
  end.

(** The edge case of the trimming step: tool results of the next message
    are abandoned. *)
Definition abandonToolResults (nextMessage : option UserInputMessage)
    : option UserInputMessage :=
  match nextMessage with
  | Some n =>
      match userInputMessageContext n with
      | Some c =>
          match toolResults c with
          | Some (_ :: _) =>
              Some {| content := Some "The conversation history has overflowed, clearing state";
                      userInputMessageContext :=
                        Some {| toolResults := None; tools := tools c; ctx_rest := ctx_rest c |};
                      uim_rest := uim_rest n |}
          | _ => nextMessage
          end
      | None => nextMessage
      end
  | None => nextMessage
  end.

(** First step: trim a history that is longer than the cap.  The result
    is the outcome, with the session and the next message as the step
    leaves them. *)
Definition trimHistory (stack : nat) (this : ChatSession)
    (nextMessage : option UserInputMessage)
    : Result unit * (ChatSession * option UserInputMessage) :=
  if (MAX_CONVERSATION_STATE_HISTORY_LEN <? length (chatHistory this))%nat then
    let indexToKeep := findIndex isValidStart (slice 1 (chatHistory this)) in
    if negb (indexToKeep =? -1)%Z then
      let actualIndex := (indexToKeep + 1)%Z in
      match set_chatHistory stack this (slice actualIndex (chatHistory this)) with
      | (Ok _, this') => (Ok tt, (this', nextMessage))
      | (Throw e, this') => (Throw e, (this', nextMessage))
      end
    else
      match set_chatHistory stack this [] with
      | (Ok _, this') => (Ok tt, (this', abandonToolResults nextMessage))
      | (Throw e, this') => (Throw e, (this', nextMessage))
      end
  else (Ok tt, (this, nextMessage)).

(** [arr.pop()] on the array behind the getter. *)
Definition pop (this : ChatSession) : ChatSession :=
  {| sessionId := sessionId this;
     _toolUse := _toolUse this;
     _chatHistory := removelast (_chatHistory this) |}.

(** Second step: drop the last message when it is from the user. *)
Definition dropTrailingUser (this : ChatSession) : ChatSession :=
  match last (chatHistory this) with
  | Some (userInputMessage _) => pop this
  | _ => this
  end.

Definition cancelledToolResult (toolUse : ToolUse) : ToolResult :=
  {| tr_toolUseId := toolUseId toolUse;
     tr_content :=
       Some [ {| cb_type := Some "text";
                 cb_text := Some "Tool use was cancelled by the user" |} ];
     tr_status := Some "error" |}.

(** Third step: pair the tool uses of the last assistant message with
    cancelled tool results in the next message. *)
Definition addCancelledToolResults (this : ChatSession)
    (nextMessage : option UserInputMessage) : option UserInputMessage :=
  match last (chatHistory this) with
  | Some (assistantResponseMessage a) =>
      match toolUses a with
      | Some (t :: ts) =>
          match nextMessage with
          | Some n =>
              match userInputMessageContext n with
              | Some c =>
                  if noToolResults (Some c) then
                    Some {| content := content n;
                            userInputMessageContext :=
                              Some {| toolResults := Some (map cancelledToolResult (t :: ts));
                                      tools := tools c;
                                      ctx_rest := ctx_rest c |};
                            uim_rest := uim_rest n |}
                  else nextMessage
              | None => nextMessage
              end
          | None => nextMessage
          end
      | _ => nextMessage
      end
  | _ => nextMessage
  end.

(** [fixHistory(nextMessage)]: the outcome, with the session and the next
    message as the call leaves them. *)
Definition fixHistory (stack : nat) (this : ChatSession)
    (nextMessage : option UserInputMessage)
    : Result unit * (ChatSession * option UserInputMessage) :=
  match trimHistory stack this nextMessage with
  | (Ok _, (this1, next1)) =>
      let this2 := dropTrailingUser this1 in
      (Ok tt, (this2, addCancelledToolResults this2 next1))
  | (Throw e, after) => (Throw e, after)
  end.

End Chat.

(** ** The streaming handler *)

Module Streaming.

(** What a call has done when control comes back to the caller: it
    returned, it threw, or it is suspended on a promise that has not
    settled. *)
Inductive Outcome (A : Type) : Type :=
  | Returned (a : A)
  | Thrown (e : Exn)
  | Suspended.
Arguments Returned {A} a.
Arguments Thrown {A} e.
Arguments Suspended {A}.

Definition completed {A} (r : Outcome A) : bool :=
  match r with Suspended => false | _ => true end.

(** The calls the handler makes on its collaborators (the messenger, the
    streaming client, the abort controller).  An abort controller is known
    by a number; [canBeVoted] is false where the code leaves it out. *)
Inductive Event : Type :=
  | SendChatInputEnabled (tabId : string) (enabled : bool)
  | SendMessage (message tabId type : string) (messageId : option string)
  | SendShortSummary (message type tabId messageId : string) (canBeVoted : bool)
  | SendErrorMessage (message tabId : string)
  | GenerateAssistantResponse (conversationId content : string) (abortSignal : option nat)
  | Abort (controller : nat).

Record Handler : Type := mkHandler {
  streamingClient : option nat;
  conversationId : string;
  messageId : string;
  isStreaming : bool;
  abortController : option nat
}.

Record World : Type := mkWorld {
  handler : Handler;
  trace : list Event
}.

(** The field initialisers of the class. *)
Definition newHandler : Handler :=
  {| streamingClient := None; conversationId := ""; messageId := "";
     isStreaming := false; abortController := None |}.

Definition newWorld : World := {| handler := newHandler; trace := [] |}.

(** What happens on the stream while [streamResponse] is awaited. *)
Inductive StreamEvent : Type :=
  | Chunk (content : option string)
  | UserCancels.

Inductive Settlement : Type :=
  | Resolves
  | Rejects (e : Exn)
  | NeverSettles.

(** Everything one call of [processUserPrompt] gets from outside: how the
    creation of the client ends, the two identifiers of [randomUUID], the
    controller that [new AbortController()] makes, how each call of the
    messenger ends, how the call of [generateAssistantResponse] ends, what
    happens on the stream, and how the promise of [streamResponse] settles. *)
Record Oracle : Type := mkOracle {
  o_createClient : Outcome nat;
  o_conversationId : string;
  o_messageId : string;
  o_controller : nat;
  o_messenger : Event -> Result unit;
  o_generate : Result unit;
  o_streamEvents : list StreamEvent;
  o_settlement : Settlement
}.

(** *** A monad for the handler: state, trace and outcome *)

Definition M (A : Type) : Type := World -> Outcome A * World.

Definition ret {A} (a : A) : M A := fun w => (Returned a, w).

Definition bind {A B} (m : M A) (k : A -> M B) : M B := fun w =>
  match m w with
  | (Returned a, w') => k a w'
  | (Thrown e, w') => (Thrown e, w')
  | (Suspended, w') => (Suspended, w')
  end.

Notation "x <~ m ; k" := (bind m (fun x => k))
  (at level 100, m at next level, right associativity, only parsing).
Notation "m ;~ k" := (bind m (fun _ => k))
  (at level 100, right associativity, only parsing).

Definition throw {A} (e : Exn) : M A := fun w => (Thrown e, w).
Definition suspend {A} : M A := fun w => (Suspended, w).
Definition this : M Handler := fun w => (Returned (handler w), w).
Definition assign (f : Handler -> Handler) : M unit := fun w =>
  (Returned tt, {| handler := f (handler w); trace := trace w |}).
Definition call (ev : Event) : M unit := fun w =>
  (Returned tt, {| handler := handler w; trace := trace w ++ [ev] |}).
Definition lift {A} (r : Result A) : M A := fun w =>
  match r with Ok a => (Returned a, w) | Throw e => (Thrown e, w) end.

(** [try { body } catch (error) { handle error } finally { fin }].  A
    suspended body runs neither the handler nor the [finally] block. *)
Definition try_catch_finally {A} (body : M A) (handle : Exn -> M A)
    (fin : M unit) : M A := fun w =>
  let after (rw : Outcome A * World) : Outcome A * World :=
    match fin (snd rw) with
    | (Returned _, w') => (fst rw, w')
    | (Thrown e, w') => (Thrown e, w')
    | (Suspended, w') => (Suspended, w')
    end in
  match body w with
  | (Returned a, w1) => after (Returned a, w1)
  | (Thrown e, w1) =>
      match handle e w1 with
      | (Suspended, w2) => (Suspended, w2)
      | rw => after rw
      end
  | (Suspended, w1) => (Suspended, w1)
  end.

(** [try { body } catch (error) { handle error }]. *)
Definition try_catch {A} (body : M A) (handle : Exn -> M A) : M A :=
  try_catch_finally body handle (ret tt).

(** *** Field assignments *)

Definition set_streamingClient (v : option nat) (h : Handler) : Handler :=
  {| streamingClient := v; conversationId := conversationId h;
     messageId := messageId h; isStreaming := isStreaming h;
     abortController := abortController h |}.
Definition set_conversationId (v : string) (h : Handler) : Handler :=
  {| streamingClient := streamingClient h; conversationId := v;
     messageId := messageId h; isStreaming := isStreaming h;
     abortController := abortController h |}.
Definition set_messageId (v : string) (h : Handler) : Handler :=
  {| streamingClient := streamingClient h; conversationId := conversationId h;
     messageId := v; isStreaming := isStreaming h;
     abortController := abortController h |}.
Definition set_isStreaming (v : bool) (h : Handler) : Handler :=
  {| streamingClient := streamingClient h; conversationId := conversationId h;
     messageId := messageId h; isStreaming := v;
     abortController := abortController h |}.
Definition set_abortController (v : option nat) (h : Handler) : Handler :=
  {| streamingClient := streamingClient h; conversationId := conversationId h;
     messageId := messageId h; isStreaming := isStreaming h;
     abortController := v |}.

(** *** The methods *)

(** A call of a [Messenger] method: it is made, and it may throw. *)
Definition messenger (o : Oracle) (ev : Event) : M unit :=
  call ev ;~ lift (o_messenger o ev).

Definition await {A} (r : Outcome A) : M A := fun w => (r, w).

Definition initialize (o : Oracle) : M unit :=
  try_catch
    (client <~ await (o_createClient o);
     assign (set_streamingClient (Some client)) ;~
     assign (set_conversationId (o_conversationId o)))
    (fun error => throw error).

Definition cancelStreaming : M unit :=
  h <~ this;
  match isStreaming h, abortController h with
  | true, Some controller => call (Abort controller)
  | _, _ => ret tt
  end.

(** [handleChunk], with [fullResponse] passed explicitly. *)
Definition handleChunk (o : Oracle) (tabId : string) (fullResponse : string)
    (content : option string) : M string :=
  match content with
  | Some (String c s) =>
      let fullResponse' := fullResponse +:+ String c s in
      try_catch
        (h <~ this;
         messenger o (SendShortSummary fullResponse' "answer-stream" tabId (messageId h) false) ;~
         ret fullResponse')
        (fun error => ret fullResponse')
  | _ => ret fullResponse
  end.

(** The listeners run while the promise of [streamResponse] is pending;
    the user may call [cancelStreaming] between two of them. *)
Fixpoint streamEvents (o : Oracle) (tabId : string) (fullResponse : string)
    (evs : list StreamEvent) : M string :=
  match evs with
  | [] => ret fullResponse
  | Chunk content :: evs' =>
      fullResponse' <~ handleChunk o tabId fullResponse content;
      streamEvents o tabId fullResponse' evs'
  | UserCancels :: evs' =>
      cancelStreaming ;~ streamEvents o tabId fullResponse evs'
  end.

(** A listener of the stream runs outside the promise's executor: an
    exception that escapes it settles nothing, the promise stays pending. *)
Definition asListener (m : M unit) : M unit := fun w =>
  match m w with
  | (Thrown _, w') => (Suspended, w')
  | rw => rw
  end.

(** [handleComplete], which ends with [resolve()]. *)
Definition handleComplete (o : Oracle) (tabId fullResponse : string) : M unit :=
  asListener
    (h <~ this;
     messenger o (SendShortSummary fullResponse "answer" tabId (messageId h) true) ;~
     messenger o (SendChatInputEnabled tabId true)).

Definition streamResponse (o : Oracle) (content tabId : string) : M unit :=
  h <~ this;
  match streamingClient h with
  | None => throw (Error "Streaming client not initialized")
  | Some _ =>
      call (GenerateAssistantResponse (conversationId h) content (abortController h)) ;~
      lift (o_generate o) ;~
      fullResponse <~ streamEvents o tabId "" (o_streamEvents o);
      match o_settlement o with
      | Resolves => handleComplete o tabId fullResponse
      | Rejects e => throw e
      | NeverSettles => suspend
      end
  end.

(** [if (!this.streamingClient) { await this.initialize() }]. *)
Definition ensureClient (o : Oracle) : M unit :=
  h <~ this;
  match streamingClient h with
  | None => initialize o
  | Some _ => ret tt
  end.

(** The three blocks of the try statement of [processUserPrompt]. *)
Definition tryBlock (userPrompt tabId : string) (o : Oracle) : M unit :=
  assign (set_isStreaming true) ;~
  assign (set_messageId (o_messageId o)) ;~
  assign (set_abortController (Some (o_controller o))) ;~
  messenger o (SendChatInputEnabled tabId false) ;~
  messenger o (SendMessage userPrompt tabId "prompt" None) ;~
  (h <~ this;
   messenger o (SendMessage "" tabId "answer-stream" (Some (messageId h)))) ;~
  streamResponse o userPrompt tabId ;~
  messenger o (SendChatInputEnabled tabId true).

Definition catchBlock (tabId : string) (o : Oracle) (error : Exn) : M unit :=
  messenger o (SendErrorMessage "Failed to process your request. Please try again." tabId) ;~
  messenger o (SendChatInputEnabled tabId true).

Definition finallyBlock : M unit :=
  assign (set_isStreaming false) ;~
  assign (set_abortController None).

Definition processUserPrompt (userPrompt tabId : string) (o : Oracle) : M unit :=
  ensureClient o ;~
  try_catch_finally (tryBlock userPrompt tabId o) (catchBlock tabId o) finallyBlock.

(** The worlds that calls of the two public methods lead to, starting
    from a new handler.  A call that is suspended stays suspended. *)
Inductive reachable : World -> Prop :=
  | reachable_new : reachable newWorld
  | reachable_prompt w userPrompt tabId o :
      reachable w -> reachable (snd (processUserPrompt userPrompt tabId o w))
  | reachable_cancel w :
      reachable w -> reachable (snd (cancelStreaming w)).

(** *** Predicates on handlers and computations *)

(** No response is being streamed. *)
Definition idle (h : Handler) : Prop :=
  isStreaming h = false /\ abortController h = None.

(** A computation that leaves the fields of the handler alone. *)
Definition keepsHandler {A} (m : M A) : Prop :=
  forall w, handler (snd (m w)) = handler w.

(** The handler while a response is streamed, [h] being the handler when
    the try block is entered. *)
Definition streamingFrom (o : Oracle) (h : Handler) : Handler :=
  set_abortController (Some (o_controller o))
    (set_messageId (o_messageId o) (set_isStreaming true h)).

(** The handler after the [finally] block. *)
Definition settledFrom (o : Oracle) (h : Handler) : Handler :=
  set_abortController None (set_isStreaming false (streamingFrom o h)).

End Streaming.

(** ** The zip utility *)

Module Zip.

(** The members of [CodeAnalysisScope] and of [FeatureUseCase] that the
    sources name. *)
Inductive CodeAnalysisScope : Type := FILE_AUTO | FILE_ON_DEMAND | PROJECT.
#[global] Instance CodeAnalysisScope_eq_dec : EqDecision CodeAnalysisScope.
Proof. solve_decision. Defined.

Inductive FeatureUseCase : Type := CODE_SCAN | TEST_GENERATION.
#[global] Instance FeatureUseCase_eq_dec : EqDecision FeatureUseCase.
Proof. solve_decision. Defined.

Record Uri : Type := mkUri { fsPath : string }.

(** What has been written to a [ZipStream], in order. *)
Inductive ZipEntry : Type :=
  | WriteString (data path : string)
  | WriteFile (file targetDir : string).
Definition ZipStream : Type := list ZipEntry.

Record ZipUtil : Type := mkZipUtil {
  _pickedSourceFiles : gset string;
  _pickedBuildFiles : gset string;
  _totalSize : Z;
  _totalBuildSize : Z;
  _tmpDir : string;
  _zipDir : string;
  _totalLines : Z;
  _fetchedDirs : gset string;
  _language : option string;
  _timestamp : string
}.

Definition set_pickedSourceFiles (v : gset string) (u : ZipUtil) : ZipUtil :=
  {| _pickedSourceFiles := v; _pickedBuildFiles := _pickedBuildFiles u;
     _totalSize := _totalSize u; _totalBuildSize := _totalBuildSize u;
     _tmpDir := _tmpDir u; _zipDir := _zipDir u; _totalLines := _totalLines u;
     _fetchedDirs := _fetchedDirs u; _language := _language u;
     _timestamp := _timestamp u |}.
Definition set_totalSize (v : Z) (u : ZipUtil) : ZipUtil :=
  {| _pickedSourceFiles := _pickedSourceFiles u; _pickedBuildFiles := _pickedBuildFiles u;
     _totalSize := v; _totalBuildSize := _totalBuildSize u;
     _tmpDir := _tmpDir u; _zipDir := _zipDir u; _totalLines := _totalLines u;
     _fetchedDirs := _fetchedDirs u; _language := _language u;
     _timestamp := _timestamp u |}.
Definition set_totalLines (v : Z) (u : ZipUtil) : ZipUtil :=
  {| _pickedSourceFiles := _pickedSourceFiles u; _pickedBuildFiles := _pickedBuildFiles u;
     _totalSize := _totalSize u; _totalBuildSize := _totalBuildSize u;
     _tmpDir := _tmpDir u; _zipDir := _zipDir u; _totalLines := v;
     _fetchedDirs := _fetchedDirs u; _language := _language u;
     _timestamp := _timestamp u |}.
Definition set_zipDir (v : string) (u : ZipUtil) : ZipUtil :=
  {| _pickedSourceFiles := _pickedSourceFiles u; _pickedBuildFiles := _pickedBuildFiles u;
     _totalSize := _totalSize u; _totalBuildSize := _totalBuildSize u;
     _tmpDir := _tmpDir u; _zipDir := v; _totalLines := _totalLines u;
     _fetchedDirs := _fetchedDirs u; _language := _language u;
     _timestamp := _timestamp u |}.

(** *** Strings *)

Definition LF : ascii := "010"%char.
Definition CR : ascii := "013"%char.
Definition backslash : ascii := ascii_of_nat 92.
Definition quote : ascii := ascii_of_nat 34.
Definition slash : ascii := "/"%char.

(** Put a character in front of the first piece. *)
Definition consHead (c : ascii) (pieces : list string) : list string :=
  match pieces with
  | p :: ps => String c p :: ps
  | [] => [String c ""]
  end.

(** [s.split(/\r?\n/)], the [newlineRegex] of [ZipConstants]. *)
Fixpoint splitNewlineRegex (s : string) : list string :=
  match s with
  | "" => [""]
  | String c r =>
      if bool_decide (c = LF) then "" :: splitNewlineRegex r
      else
        match r with
        | String c2 r2 =>
            if bool_decide (c = CR) && bool_decide (c2 = LF)
            then "" :: splitNewlineRegex r2
            else consHead c (splitNewlineRegex r)
        | "" => consHead c (splitNewlineRegex r)
        end
  end.

(** [s.split('\n')]. *)
Fixpoint splitLF (s : string) : list string :=
  match s with
  | "" => [""]
  | String c r =>
      if bool_decide (c = LF) then "" :: splitLF r
      else consHead c (splitLF r)
  end.

(** [lines.join('\n')]. *)
Fixpoint joinLF (lines : list string) : string :=
  match lines with
  | [] => ""
  | [l] => l
  | l :: ls => l +:+ String LF (joinLF ls)
  end.

(** [line.replace(/\\\\/g, '/')]: every pair of consecutive backslashes,
    found from left to right without overlap, becomes one slash. *)
Fixpoint replaceDoubleBackslash (s : string) : string :=
  match s with
  | "" => ""
  | String c r =>
      match r with
      | String c2 r2 =>
          if bool_decide (c = backslash) && bool_decide (c2 = backslash)
          then String slash (replaceDoubleBackslash r2)
          else String c (replaceDoubleBackslash r)
      | "" => String c ""
      end
  end.

(** [line.replace(/Q/g, '')], where Q is the double quote: every double
    quote is removed. *)
Fixpoint removeQuotes (s : string) : string :=
  match s with
  | "" => ""
  | String c r =>
      if bool_decide (c = quote) then removeQuotes r
      else String c (removeQuotes r)
  end.

(** The longest prefix without a double quote, and what follows it. *)
Fixpoint spanNotQuote (s : string) : string * string :=
  match s with
  | "" => ("", "")
  | String c r =>
      if bool_decide (c = quote) then ("", s)
      else let '(run, rest) := spanNotQuote r in (String c run, rest)
  end.

(** A match, at the start of [s], of the pattern of the second and third
    [replace] of [rewriteDiff]: one group made of a double quote, the
    letter [x], a slash and the longest run without a double quote.  The
    result is the text of the group and the rest of the string. *)
Definition matchQuotedPath (x : ascii) (s : string) : option (string * string) :=
  match s with
  | String c0 (String c1 (String c2 r)) =>
      if bool_decide (c0 = quote) && bool_decide (c1 = x) && bool_decide (c2 = slash)
      then let '(run, rest) := spanNotQuote r in
           Some (String c0 (String c1 (String c2 run)), rest)
      else None
  | _ => None
  end.

(** [line.replace(pattern, (match, p1) => p1)] with that pattern and the
    flag g: each match is replaced by its group 1.  [fuel] bounds the
    number of positions the scan visits; the length of the string is
    enough, a step consumes at least one character. *)
Fixpoint replaceWithGroup1 (fuel : nat) (x : ascii) (s : string) : string :=
  match fuel with
  | O => s
  | S fuel' =>
      match matchQuotedPath x s with
      | Some (p1, rest) => p1 +:+ replaceWithGroup1 fuel' x rest
      | None =>
          match s with
          | "" => ""
          | String c r => String c (replaceWithGroup1 fuel' x r)
          end
      end
  end.

(** The callback given to [map] in [rewriteDiff]. *)
Definition rewriteLine (line : string) : string :=
  let line := replaceDoubleBackslash line in
  let line := replaceWithGroup1 (String.length line) "a"%char line in
  let line := replaceWithGroup1 (String.length line) "b"%char line in
  removeQuotes line.

Definition rewriteDiff (inputStr : string) : string :=
  let lines := splitLF inputStr in
  let rewrittenLines := map rewriteLine (take 5 lines) in
  let outputLines := rewrittenLines ++ drop 5 lines in
  joinLF outputLines.

(** No line feed in the string. *)
Fixpoint noLF (s : string) : Prop :=
  match s with
  | "" => True
  | String c r => c <> LF /\ noLF r
  end.

(** *** Size limits *)

(** Constants of [models/constants] and functions of the platform
    ([Buffer], [path], [pathUtils], [runtimeLanguageContext]) that the
    methods below use. *)
Record Platform : Type := mkPlatform {
  fileScanPayloadSizeLimitBytes : Z;
  projectScanPayloadSizeLimitBytes : Z;
  codeScanTruncDirPrefix : string;
  TestGenerationTruncDirPrefix : string;
  codeScanZipExt : string;
  byteLength : string -> Z;
  path_join : string -> string -> string;
  path_basename : string -> string;
  path_extname : string -> string;
  normalize : string -> string;
  getLanguageFromFileExtension : string -> option string
}.

Section WithPlatform.

Variable P : Platform.

Definition codeDiffFilePath : string := "codeDiff/code.diff".

Definition getFileScanPayloadSizeLimitInBytes : Z := fileScanPayloadSizeLimitBytes P.
Definition getProjectScanPayloadSizeLimitInBytes : Z := projectScanPayloadSizeLimitBytes P.

Definition reachSizeLimit (size : Z) (scope : CodeAnalysisScope) : bool :=
  if bool_decide (scope = FILE_AUTO) || bool_decide (scope = FILE_ON_DEMAND)
  then (size >? getFileScanPayloadSizeLimitInBytes)%Z
  else (size >? getProjectScanPayloadSizeLimitInBytes)%Z.

Definition willReachSizeLimit (current adding : Z) : bool :=
  let willReachLimit := (current + adding >? getProjectScanPayloadSizeLimitInBytes)%Z in
  willReachLimit.

Definition getZipEntryPath (projectName relativePath : string) : string :=
  path_join P projectName relativePath.

(** [s.slice(1)]. *)
Definition slice1 (s : string) : string :=
  match s with
  | "" => ""
  | String _ r => r
  end.

Definition incrementCountForLanguage (uri : Uri) (languageCount : gmap string Z)
    : gmap string Z :=
  let fileExtension := slice1 (path_extname P (fsPath uri)) in
  match getLanguageFromFileExtension P fileExtension with
  | Some language =>
      if negb (bool_decide (language = "")) && negb (bool_decide (language = "plaintext"))
      then <[language := (default 0 (languageCount !! language) + 1)%Z]> languageCount
      else languageCount
  | None => languageCount
  end.

(** [getZipDirPath]: the path, and the object after the call. *)
Definition getZipDirPath (this : ZipUtil) (useCase : FeatureUseCase)
    : string * ZipUtil :=
  if bool_decide (_zipDir this = "") then
    let prefix :=
      if bool_decide (useCase = TEST_GENERATION)
      then TestGenerationTruncDirPrefix P
      else codeScanTruncDirPrefix P in
    let this' :=
      set_zipDir (path_join P (_tmpDir this) (prefix +:+ "_" +:+ _timestamp this)) this in
    (_zipDir this', this')
  else (_zipDir this, this).

(** [processTextFile]: the outcome, and the object, the zip stream and
    the language counts after the call. *)
Definition processTextFile (this : ZipUtil) (zip : ZipStream) (uri : Uri)
    (fileContent : string) (languageCount : gmap string Z) (zipEntryPath : string)
    : Result unit * (ZipUtil * ZipStream * gmap string Z) :=
  let fileSize := byteLength P fileContent in
  if reachSizeLimit (_totalSize this) PROJECT
     || willReachSizeLimit (_totalSize this) fileSize
  then (Throw ProjectSizeExceededError, (this, zip, languageCount))
  else
    let this := set_pickedSourceFiles ({[ fsPath uri ]} ∪ _pickedSourceFiles this) this in
    let this := set_totalSize (_totalSize this + fileSize) this in
    let this :=
      set_totalLines
        (_totalLines this + Z.of_nat (length (splitNewlineRegex fileContent))) this in
    let languageCount := incrementCountForLanguage uri languageCount in
    (Ok tt, (this, zip ++ [WriteString fileContent zipEntryPath], languageCount)).

(** What [zipFile] gets from the editor and the file system; [None]
    stands for a rejected promise. *)
Record FileEnv : Type := mkFileEnv {
  textContent : option string;
  workspaceFolder : option string;
  relativePath : string;
  statSize : option Z;
  finalized : bool
}.

(** [zipFile]: the outcome (the path of the archive and its entries),
    and the object after the call. *)
Definition zipFile (this : ZipUtil) (uri : option Uri) (scope : CodeAnalysisScope)
    (env : FileEnv) : Result (string * ZipStream) * ZipUtil :=
  match uri with
  | None => (Throw NoActiveFileError, this)
  | Some uri =>
      match textContent env with
      | None => (Throw IOError, this)
      | Some content =>
          let zip : ZipStream :=
            match workspaceFolder env with
            | Some folder =>
                let projectName := path_basename P folder in
                let zipEntryPath := getZipEntryPath projectName (relativePath env) in
                WriteString content zipEntryPath ::
                (if bool_decide (scope = FILE_ON_DEMAND)
                 then [WriteString ("+++ b/" +:+ normalize P zipEntryPath) codeDiffFilePath]
                 else [])
            | None => [WriteString content (fsPath uri)]
            end in
          let this := set_pickedSourceFiles ({[ fsPath uri ]} ∪ _pickedSourceFiles this) this in
          match statSize env with
          | None => (Throw IOError, this)
          | Some size =>
              let this := set_totalSize (_totalSize this + size) this in
              let this :=
                set_totalLines
                  (_totalLines this + Z.of_nat (length (splitNewlineRegex content))) this in
              if reachSizeLimit (_totalSize this) scope
              then (Throw FileSizeExceededError, this)
              else
                let '(zipDir, this) := getZipDirPath this CODE_SCAN in
                let zipFilePath := zipDir +:+ codeScanZipExt P in
                if finalized env then (Ok (zipFilePath, zip), this)
                else (Throw IOError, this)
          end
      end
  end.

End WithPlatform.

End Zip.

(** ** The EC2 connection helper *)

Module Ec2.

(** [type Ec2OS = 'Amazon Linux' | 'Ubuntu' | 'macOS']. *)
Inductive Ec2OS : Type := AmazonLinux | Ubuntu | macOS.

(** The string literal a member of the union is. *)
Definition literal (os : Ec2OS) : string :=
  match os with
  | AmazonLinux => "Amazon Linux"
  | Ubuntu => "Ubuntu"
  | macOS => "macOS"
  end.

Definition isLinux (os : Ec2OS) : bool :=
  bool_decide (literal os = "Amazon Linux") || bool_decide (literal os = "Ubuntu").

(** [s.startsWith(needle)]. *)
Fixpoint startsWith (needle s : string) : bool :=
  match needle, s with
  | "", _ => true
  | String a needle', String b s' => bool_decide (a = b) && startsWith needle' s'
  | String _ _, "" => false
  end.

(** [s.includes(needle)]: the needle starts at some position of [s]. *)
Fixpoint includes (needle s : string) : bool :=
  startsWith needle s ||
  match s with
  | "" => false
  | String _ r => includes needle r
  end.

Definition getRemoveLinesCommand (pattern : string) (hostOS : Ec2OS) (filepath : string)
    : Result string :=
  if includes "/" pattern then
    Throw (ToolkitError ("ec2: cannot match pattern containing '/', given: " +:+ pattern))
  else
    Ok ("sed -i" +:+ (if isLinux hostOS then "" else " ''")
        +:+ " /" +:+ pattern +:+ "/d " +:+ filepath).

(** The pattern has a slash somewhere. *)
Definition hasSlash (pattern : string) : Prop :=
  exists before after, pattern = before +:+ String "/" after.

End Ec2.

(** ** Sample inputs *)

Module Samples.
Import Chat Streaming Zip.

Definition userSays (text : string) : ChatMessage :=
  userInputMessage
    {| content := Some text; userInputMessageContext := None; uim_rest := [] |}.

Definition assistantSays (text : string) : ChatMessage :=
  assistantResponseMessage
    {| arm_content := Some text; toolUses := None; arm_rest := [] |}.

Definition fsRead (id : string) : ToolUse :=
  {| toolUseId := Some id; tu_name := Some "fsRead"; tu_input := None |}.

Definition assistantUses (ids : list string) : ChatMessage :=
  assistantResponseMessage
    {| arm_content := Some ""; toolUses := Some (map fsRead ids); arm_rest := [] |}.

Definition okResult (id : string) : ToolResult :=
  {| tr_toolUseId := Some id; tr_content := Some []; tr_status := Some "success" |}.

(** A user message that returns the results of tools. *)
Definition userReturns (ids : list string) : UserInputMessage :=
  {| content := Some "";
     userInputMessageContext :=
       Some {| toolResults := Some (map okResult ids); tools := None; ctx_rest := [] |};
     uim_rest := [] |}.

(** A user message typed while tools were pending: a context, no results. *)
Definition stopMessage : UserInputMessage :=
  {| content := Some "stop";
     userInputMessageContext :=
       Some {| toolResults := None; tools := Some ["fsRead"]; ctx_rest := [] |};
     uim_rest := [("userIntent", "CODE_GENERATION")] |}.

Definition sessionWith (h : list ChatMessage) : ChatSession :=
  {| sessionId := Some "conversation-1"; _toolUse := None; _chatHistory := h |}.

(** 51 question and answer pairs: 102 messages. *)
Definition longHistory : list ChatMessage :=
  concat (replicate 51 [userSays "question"; assistantSays "answer"]).

(** One question followed by 100 assistant messages: 101 messages, none
    after the first can start a trimmed history. *)
Definition unanchoredHistory : list ChatMessage :=
  userSays "question" :: replicate 100 (assistantUses ["t1"]).

(** A stream of three chunks, with a cancellation by the user after the
    first, that ends well. *)
Definition sampleOracle : Oracle :=
  {| o_createClient := Returned 1;
     o_conversationId := "conversation-1";
     o_messageId := "message-1";
     o_controller := 7;
     o_messenger := fun _ => Ok tt;
     o_generate := Ok tt;
     o_streamEvents := [Chunk (Some "Hello"); UserCancels; Chunk (Some ", world"); Chunk None];
     o_settlement := Resolves |}.

(** The same stream, never settled. *)
Definition hangingOracle : Oracle :=
  {| o_createClient := Returned 1;
     o_conversationId := "conversation-1";
     o_messageId := "message-1";
     o_controller := 7;
     o_messenger := fun _ => Ok tt;
     o_generate := Ok tt;
     o_streamEvents := [Chunk (Some "Hello")];
     o_settlement := NeverSettles |}.

(** Limits of 200 KiB and 1 GiB, byte length of a text of one-byte
    characters, paths with slashes. *)
Definition samplePlatform : Platform :=
  {| fileScanPayloadSizeLimitBytes := 204800;
     projectScanPayloadSizeLimitBytes := 1073741824;
     codeScanTruncDirPrefix := "codewhisperer_scan";
     TestGenerationTruncDirPrefix := "testGeneration";
     codeScanZipExt := ".zip";
     byteLength := fun s => Z.of_nat (String.length s);
     path_join := fun a b => a +:+ "/" +:+ b;
     path_basename := fun p => p;
     path_extname := fun _ => ".ts";
     normalize := fun p => p;
     getLanguageFromFileExtension :=
       fun ext => if bool_decide (ext = "ts") then Some "typescript" else None |}.

(** A [ZipUtil] one byte below the project limit. *)
Definition nearlyFull : ZipUtil :=
  {| _pickedSourceFiles := ∅; _pickedBuildFiles := ∅;
     _totalSize := 1073741823; _totalBuildSize := 0;
     _tmpDir := "/tmp"; _zipDir := ""; _totalLines := 12;
     _fetchedDirs := ∅; _language := None; _timestamp := "1700000000000" |}.

Definition sampleUri : Uri := {| fsPath := "/work/app/src/index.ts" |}.

(** A diff of seven lines: quoted paths with doubled backslashes in the
    header, and a quote and a doubled backslash again in the seventh. *)
Definition dquote : string := String quote "".
Definition bslash : string := String backslash "".
Definition sampleDiff : string :=
  joinLF [ "diff --git " +:+ dquote +:+ "a/app" +:+ bslash +:+ bslash +:+ "x.ts" +:+ dquote
             +:+ " " +:+ dquote +:+ "b/app" +:+ bslash +:+ bslash +:+ "x.ts" +:+ dquote;
           "new file mode 100644";
           "index 0000000..e69de29";
           "--- /dev/null";
           "+++ " +:+ dquote +:+ "b/app" +:+ bslash +:+ bslash +:+ "x.ts" +:+ dquote;
           "@@ -0,0 +1 @@";
           "+const s = " +:+ dquote +:+ "a" +:+ bslash +:+ bslash +:+ "b" +:+ dquote ].

Definition sampleFile : FileEnv :=
  {| textContent := Some "ab"; workspaceFolder := Some "app";
     relativePath := "src/index.ts"; statSize := Some 2%Z; finalized := true |}.

End Samples.

(** * Further code of the same files

    - [ChatSession]: the constructor, [setSessionID], [setToolUse] and
      [chatSso], the caller of [fixHistory];
    - [QCliStreamingHandler]: the text that [streamResponse] accumulates and
      the calls that [processUserPrompt] makes;
    - shared/utilities/messages.ts: [showConfirmationMessage],
      [handleOverwriteConflict], [Messages.putMessage] and [showOnce];
    - [ZipUtil]: [processBinaryFile], [processOtherFiles], [getZipDirPath]
      and the choice of the language at the end of [zipProject];
    - [Ec2Connecter] (awsService/ec2/model.ts): the checks of
      [checkForStartSessionError], [getRemoteUser], [tryCleanKeys] and
      [sendSshKeyToInstance], the callers of [getRemoveLinesCommand];
    - [collectFiles] (shared/utilities/workspaceUtils.ts), which
      [processSourceFiles] calls. *)

(** ** The requests of a chat session *)

Module ChatCalls.
Import Chat.

(** The constructor of [ChatSession]: no session id, no tool use, an empty
    history. *)
Definition newChatSession : ChatSession :=
  {| sessionId := None; _toolUse := None; _chatHistory := [] |}.

Definition setSessionID (this : ChatSession) (id : option string) : ChatSession :=
  {| sessionId := id; _toolUse := _toolUse this; _chatHistory := _chatHistory this |}.

Definition setToolUse (this : ChatSession) (toolUse : option ToolUse) : ChatSession :=
  {| sessionId := sessionId this; _toolUse := toolUse; _chatHistory := _chatHistory this |}.

(** The parts of a [GenerateAssistantResponseRequest] that [chatSso] reads
    or writes. *)
Record ConversationState : Type := mkConversationState {
  cs_conversationId : option string;
  currentMessage : option ChatMessage;
  cs_rest : Fields
}.

Record GenerateAssistantResponseRequest : Type := mkRequest {
  conversationState : option ConversationState;
  req_rest : Fields
}.

(** The parts of the output of the client that [chatSso] reads:
    [generateAssistantResponseResponse] is the stream, known by a number. *)
Record GenerateAssistantResponseCommandOutput : Type := mkOutput {
  generateAssistantResponseResponse : option nat;
  out_conversationId : option string;
  out_requestId : option string
}.

(** What [chatSso] gets from outside: how the creation of the client ends,
    and how the client answers a request. *)
Record SsoEnv : Type := mkSsoEnv {
  createCodeWhispererChatStreamingClient : Result unit;
  generateAssistantResponse :
    GenerateAssistantResponseRequest -> Result GenerateAssistantResponseCommandOutput
}.

(** What a call of [chatSso] leaves: the session, the request object it
    was given (the call writes to it), and the requests given to the
    client. *)
Record SsoAfter : Type := mkSsoAfter {
  after_session : ChatSession;
  after_request : GenerateAssistantResponseRequest;
  sent : list GenerateAssistantResponseRequest
}.

(** A value inside a template literal. *)
Definition display (v : option string) : string := default "undefined" v.

(** [if (this.sessionId !== '' && this.sessionId !== undefined &&
    chatRequest.conversationState !== undefined)
    chatRequest.conversationState.conversationId = this.sessionId]. *)
Definition assignConversationId (this : ChatSession)
    (chatRequest : GenerateAssistantResponseRequest) : GenerateAssistantResponseRequest :=
  match sessionId this, conversationState chatRequest with
  | Some id, Some cs =>
      if bool_decide (id = "") then chatRequest
      else {| conversationState :=
                Some {| cs_conversationId := Some id;
                        currentMessage := currentMessage cs;
                        cs_rest := cs_rest cs |};
              req_rest := req_rest chatRequest |}
  | _, _ => chatRequest
  end.

(** [chatRequest.conversationState?.currentMessage?.userInputMessage]. *)
Definition currentUserInputMessage (chatRequest : GenerateAssistantResponseRequest)
    : option UserInputMessage :=
  match conversationState chatRequest with
  | Some cs =>
      match currentMessage cs with
      | Some (userInputMessage u) => Some u
      | _ => None
      end
  | None => None
  end.

(** The request after [fixHistory] has written to the user message it was
    given, which is the object inside the request. *)
Definition withCurrentUserInputMessage (chatRequest : GenerateAssistantResponseRequest)
    (nextMessage : option UserInputMessage) : GenerateAssistantResponseRequest :=
  match conversationState chatRequest, nextMessage with
  | Some cs, Some u =>
      match currentMessage cs with
      | Some (userInputMessage _) =>
          {| conversationState :=
               Some {| cs_conversationId := cs_conversationId cs;
                       currentMessage := Some (userInputMessage u);
                       cs_rest := cs_rest cs |};
             req_rest := req_rest chatRequest |}
      | _ => chatRequest
      end
  | _, _ => chatRequest
  end.

Definition emptyResponseMessage (this : ChatSession)
    (response : GenerateAssistantResponseCommandOutput) : string :=
  "Empty chat response. Session id: " +:+ display (sessionId this)
    +:+ " Request ID: " +:+ display (out_requestId response).

Definition chatSso (stack : nat) (env : SsoEnv) (this : ChatSession)
    (chatRequest : GenerateAssistantResponseRequest)
    : Result GenerateAssistantResponseCommandOutput * SsoAfter :=
  match createCodeWhispererChatStreamingClient env with
  | Throw e =>
      (Throw e, {| after_session := this; after_request := chatRequest; sent := [] |})
  | Ok _ =>
      let chatRequest := assignConversationId this chatRequest in
      match fixHistory stack this (currentUserInputMessage chatRequest) with
      | (Throw e, (this, nextMessage)) =>
          (Throw e,
           {| after_session := this;
              after_request := withCurrentUserInputMessage chatRequest nextMessage;
              sent := [] |})
      | (Ok _, (this, nextMessage)) =>
          let chatRequest := withCurrentUserInputMessage chatRequest nextMessage in
          match generateAssistantResponse env chatRequest with
          | Throw e =>
              (Throw e,
               {| after_session := this; after_request := chatRequest;
                  sent := [chatRequest] |})
          | Ok response =>
              match generateAssistantResponseResponse response with
              | None =>
                  (Throw (ToolkitError (emptyResponseMessage this response)),
                   {| after_session := this; after_request := chatRequest;
                      sent := [chatRequest] |})
              | Some _ =>
                  (Ok response,
                   {| after_session := setSessionID this (out_conversationId response);
                      after_request := chatRequest;
                      sent := [chatRequest] |})
              end
          end
      end
  end.

(** The sessions that the public methods lead to from a new session:
    [setSessionID], [setToolUse], [pushToChatHistory] and [chatSso] (which
    runs [fixHistory]), whatever their arguments and outcome. *)
Inductive built : ChatSession -> Prop :=
  | built_new : built newChatSession
  | built_setSessionID this id : built this -> built (setSessionID this id)
  | built_setToolUse this toolUse : built this -> built (setToolUse this toolUse)
  | built_push this message : built this -> built (pushToChatHistory this message)
  | built_chatSso stack env this chatRequest :
      built this -> built (after_session (snd (chatSso stack env this chatRequest))).

(** A message of the history that carries no tool specification. *)
Definition withoutTools (message : ChatMessage) : Prop :=
  match message with
  | userInputMessage u =>
      exists c, userInputMessageContext u = Some c /\ tools c = None
  | _ => True
  end.

End ChatCalls.


(** ** The stream of a response *)

Module StreamingMore.
Import Streaming.

(** The text of the chunks of a stream, in order. *)
Fixpoint chunkText (evs : list StreamEvent) : string :=
  match evs with
  | [] => ""
  | Chunk (Some text) :: evs' => text +:+ chunkText evs'
  | _ :: evs' => chunkText evs'
  end.

(** An event that is no call of [abort], or is the call on [controller]. *)
Definition abortsOnly (controller : nat) (ev : Event) : Prop :=
  forall c, ev = Abort c -> c = controller.

(** A computation that only adds events to the trace, each of which
    satisfies [P]. *)
Definition appends {A} (P : Event -> Prop) (m : M A) : Prop :=
  forall w, exists new, trace (snd (m w)) = trace w ++ new /\ Forall P new.

(** The same for a computation that is run with [controller] in
    [abortController] and leaves it there. *)
Definition appendsWith {A} (controller : nat) (P : Event -> Prop) (m : M A) : Prop :=
  forall w, abortController (handler w) = Some controller ->
    abortController (handler (snd (m w))) = Some controller
    /\ exists new, trace (snd (m w)) = trace w ++ new /\ Forall P new.

(** A computation whose last call, when it returns, is [ev]. *)
Definition endsWith {A} (ev : Event) (m : M A) : Prop :=
  forall w a w', m w = (Returned a, w') -> last (trace w') = Some ev.

End StreamingMore.

(** ** Messages (shared/utilities/messages.ts) *)

Module Messages.

(** The JavaScript values that the code below tests for truth. *)
Inductive JsValue : Type :=
  | JsUndefined
  | JsBoolean (b : bool)
  | JsPromise (fulfilledWith : bool).

(** [ToBoolean]: an object, and so a promise, is true. *)
Definition truthy (v : JsValue) : bool :=
  match v with
  | JsUndefined => false
  | JsBoolean b => b
  | JsPromise _ => true
  end.

(** The calls on the editor and on the file system. *)
Inductive UiCall : Type :=
  | ShowInformationMessage (prompt : string) (modal : bool) (items : list string)
  | ShowWarningMessage (prompt : string) (modal : bool) (items : list string)
  | FsDelete (fsPath : string).

(** The [type] of a confirmation. *)
Inductive ConfirmationType : Type := info | warning.

Section WithTexts.

(** [localizedText.confirm], [localizedText.cancel], the function
    [localize] of the message bundle and [path.basename]. *)
Variable localizedConfirm : string.
Variable localizedCancel : string.
Variable localize : string -> string -> list string -> string.
Variable basename : string -> string.

(** [showConfirmationMessage]: the calls it makes, and the value its
    promise is fulfilled with, [selection] being the title of the item the
    user picks, if any. *)
Definition showConfirmationMessage (prompt : string) (confirm cancel : option string)
    (type : option ConfirmationType) (selection : option string) : bool * list UiCall :=
  let confirmItem := default localizedConfirm confirm in
  let cancelItem := default localizedCancel cancel in
  match type with
  | Some info =>
      (bool_decide (selection = Some confirmItem),
       [ShowInformationMessage prompt true [confirmItem; cancelItem]])
  | _ =>
      (bool_decide (selection = Some confirmItem),
       [ShowWarningMessage prompt true [confirmItem; cancelItem]])
  end.

(** What [handleOverwriteConflict] gets from the file system. *)
Record OverwriteEnv : Type := mkOverwriteEnv {
  fsExists : bool;
  fsDelete : Result unit
}.

(** [handleOverwriteConflict(location)]: the outcome and the calls made.
    [choice] is the value of the call of [showConfirmationMessage], which
    the code does not await: the promise itself. *)
Definition handleOverwriteConflict (env : OverwriteEnv) (selection : option string)
    (location : string) : Result bool * list UiCall :=
  if negb (fsExists env) then (Ok true, [])
  else
    let '(answer, calls) :=
      showConfirmationMessage
        (localize "AWS.toolkit.confirmOverwrite"
           "{0} already exists in the selected directory, overwrite?" [location])
        (Some (localize "AWS.generic.overwrite" "Yes" []))
        (Some (localize "AWS.generic.cancel" "No" []))
        (Some warning) selection in
    let choice := JsPromise answer in
    if negb (truthy choice) then
      (Throw (ToolkitError ("Folder already exists: " +:+ basename location)), calls)
    else
      match fsDelete env with
      | Ok _ => (Ok true, calls ++ [FsDelete location])
      | Throw _ =>
          (Throw (ToolkitError ("Failed to delete existing folder: " +:+ basename location)),
           calls ++ [FsDelete location])
      end.

End WithTexts.

(** *** The class [Messages] *)

(** A message of [messageMap]: its timeout and its progress, each known
    by a number. *)
Record MessageItems : Type := mkMessageItems {
  timeout : nat;
  progress : nat
}.

Inductive MessageCall : Type :=
  | NewTimeout (timeoutMillis : Z) (timeout : nat)
  | ShowMessageWithCancel (messageText : string) (timeout : nat)
  | Report (progress : nat) (progressEntry : string).

(** What [putMessage] gets from outside: which timeouts are completed, the
    timeout that [new Timeout] makes, and how [showMessageWithCancel]
    settles. *)
Record MessagesEnv : Type := mkMessagesEnv {
  completedTimeout : nat -> bool;
  newTimeout : nat;
  shown : Result nat
}.

Definition timeoutMillisDefault : Z := 60000.

(** [startMessage]: the outcome, the map and the calls. *)
Definition startMessage (env : MessagesEnv) (messageMap : gmap string MessageItems)
    (msgId messageText : string) (timeoutMillis : option Z)
    : Result unit * gmap string MessageItems * list MessageCall :=
  let millis := default timeoutMillisDefault timeoutMillis in
  let calls := [NewTimeout millis (newTimeout env);
                ShowMessageWithCancel messageText (newTimeout env)] in
  match shown env with
  | Ok p =>
      (Ok tt,
       <[msgId := {| timeout := newTimeout env; progress := p |}]> messageMap,
       calls)
  | Throw e => (Throw e, messageMap, calls)
  end.

(** [putMessage]: the timeout it returns, the map and the calls. *)
Definition putMessage (env : MessagesEnv) (messageMap : gmap string MessageItems)
    (msgId messageText : string) (progressEntry : option string)
    (timeoutMillis : option Z)
    : Result nat * gmap string MessageItems * list MessageCall :=
  let message :=
    match messageMap !! msgId with
    | Some m => if completedTimeout env (timeout m) then None else Some m
    | None => None
    end in
  let '(started, messageMap, calls, message) :=
    match message with
    | Some m => (Ok tt, messageMap, [], Some m)
    | None =>
        let '(r, messageMap', calls) :=
          startMessage env messageMap msgId messageText timeoutMillis in
        (r, messageMap', calls, messageMap' !! msgId)
    end in
  match started, message with
  | Throw e, _ => (Throw e, messageMap, calls)
  | Ok _, Some m =>
      (Ok (timeout m), messageMap,
       calls ++ match progressEntry with
                | Some entry => [Report (progress m) entry]
                | None => []
                end)
  | Ok _, None => (Throw (Error "TypeError"), messageMap, calls)
  end.

(** *** showOnce *)

(** [showOnce(key, fn)]: [shownBefore] is the value of the key in the
    global state, [updated] tells whether the update of the state
    succeeds.  The result is the outcome (the promise of [fn], if it ran),
    the value of the key after the call and the number of runs of [fn]. *)
Definition showOnce (shownBefore : bool) (updated : bool) (promise : nat)
    : Result (option nat) * bool * nat :=
  if shownBefore then (Ok None, shownBefore, 0)
  else if updated then (Ok (Some promise), true, 1)
  else (Throw IOError, shownBefore, 1).

(** Calls of [showOnce] one after the other: the value of the key at the
    end and the number of runs of [fn]. *)
Fixpoint showOnceEach (shownBefore : bool) (calls : list (bool * nat)) : bool * nat :=
  match calls with
  | [] => (shownBefore, 0)
  | (updated, promise) :: calls' =>
      let '(_, shownAfter, runs) := showOnce shownBefore updated promise in
      let '(shownAtEnd, runs') := showOnceEach shownAfter calls' in
      (shownAtEnd, runs + runs')
  end.

End Messages.

(** ** More of the zip utility *)

Module ZipMore.
Import Zip.

(** The number of line feeds of a string. *)
Fixpoint countLF (s : string) : nat :=
  match s with
  | "" => 0
  | String c r => (if bool_decide (c = LF) then 1 else 0) + countLF r
  end.

(** An open text document of the editor: the scheme and the path of its
    uri, its text, and the workspace folder it belongs to, if any. *)
Record TextDocument : Type := mkTextDocument {
  doc_scheme : string;
  doc_uri : Uri;
  doc_text : string;
  doc_workspaceFolder : option string
}.

(** [[...languageCount.entries()].reduce((a, b) => (b[1] > a[1] ? b : a))],
    on the entries in the order of their insertion, the first apart. *)
Definition moreUsed (a b : string * Z) : string * Z :=
  if (snd b >? snd a)%Z then b else a.

(** The end of [zipProject]: the language that [_language] is set to, or
    [None] when no language was counted and the method throws
    [NoSourceFilesError]. *)
Definition mostUsedLanguage (entries : list (string * Z)) : option string :=
  match entries with
  | [] => None
  | first :: others => Some (fst (fold_left moreUsed others first))
  end.

Section WithPlatform.

Variable P : Platform.
Variable path_dirname : string -> string.

(** [processBinaryFile]: [statSize] is the size that [fs.stat] gives, if
    it gives one. *)
Definition processBinaryFile (this : ZipUtil) (zip : ZipStream) (uri : Uri)
    (zipEntryPath : string) (statSize : option Z)
    : Result unit * (ZipUtil * ZipStream) :=
  match statSize with
  | None => (Throw IOError, (this, zip))
  | Some fileSize =>
      if reachSizeLimit P (_totalSize this) PROJECT
         || willReachSizeLimit P (_totalSize this) fileSize
      then (Throw ProjectSizeExceededError, (this, zip))
      else
        let this := set_pickedSourceFiles ({[ fsPath uri ]} ∪ _pickedSourceFiles this) this in
        let this := set_totalSize (_totalSize this + fileSize) this in
        (Ok tt, (this, zip ++ [WriteFile (fsPath uri) (path_dirname zipEntryPath)]))
  end.

(** The loop of [processOtherFiles] over the documents it has selected. *)
Fixpoint processTextFiles (this : ZipUtil) (zip : ZipStream)
    (languageCount : gmap string Z) (documents : list TextDocument)
    : Result unit * (ZipUtil * ZipStream * gmap string Z) :=
  match documents with
  | [] => (Ok tt, (this, zip, languageCount))
  | document :: documents' =>
      match processTextFile P this zip (doc_uri document) (doc_text document)
              languageCount (fsPath (doc_uri document)) with
      | (Ok _, (this', zip', languageCount')) =>
          processTextFiles this' zip' languageCount' documents'
      | (Throw e, after) => (Throw e, after)
      end
  end.

(** The documents that [processOtherFiles] selects: files that belong to
    no workspace folder. *)
Definition otherFiles (textDocuments : list TextDocument) : list TextDocument :=
  filter (fun document => doc_workspaceFolder document = None)
    (filter (fun document => doc_scheme document = "file") textDocuments).

Definition processOtherFiles (this : ZipUtil) (zip : ZipStream)
    (languageCount : gmap string Z) (textDocuments : list TextDocument)
    : Result unit * (ZipUtil * ZipStream * gmap string Z) :=
  processTextFiles this zip languageCount (otherFiles textDocuments).

End WithPlatform.

(** The entry that [processOtherFiles] writes for a document, and the
    bytes of the texts of documents. *)
Definition entryOf (document : TextDocument) : ZipEntry :=
  WriteString (doc_text document) (fsPath (doc_uri document)).

Definition sizeOf (P : Platform) (documents : list TextDocument) : Z :=
  foldr (fun document total => (byteLength P (doc_text document) + total)%Z) 0%Z documents.

End ZipMore.
(** ** Connecting to an instance *)

Module Ec2Connect.
Import Ec2.

(** What the methods of [Ec2Connecter] throw: a [ToolkitError] with its
    message and its error code, a [CancellationError] with its agent, or an
    exception that comes from elsewhere: the rejection of a promise of a
    service, or what [getRemoveLinesCommand] throws. *)
Inductive Ec2Error : Type :=
| ToolkitErrorWithCode (message code : string)
| CancellationError (agent : string)
| Other (e : Exn).

Inductive Outcome (A : Type) : Type :=
| Returns (a : A)
| Throws (e : Ec2Error).
Arguments Returns {A} a.
Arguments Throws {A} e.

Record Ec2Selection : Type := mkEc2Selection {
  instanceId : string;
  region : string
}.

Record RemoteUser : Type := mkRemoteUser {
  os : Ec2OS;
  name : string
}.

Record IamInstanceProfile : Type := mkIamInstanceProfile {
  profile_Arn : option string
}.

Record IamRole : Type := mkIamRole {
  Arn : string
}.

(** The calls to the services, to the user and to the key pair, as they
    are made. *)
Inductive Call : Type :=
| GetInstanceStatus (instanceId : string)
| GetAttachedIamInstanceProfile (instanceId : string)
| GetIAMRoleFromInstanceProfile (profileArn : string)
| GetDeniedSsmActions (roleArn : string)
| PromptToAddInlinePolicy (roleArn : string)
| WaitUntilAgentOnline (instanceId : string) (interval timeout : Z)
| GetTargetPlatformName (instanceId : string)
| GetPublicKey
| SendCommandAndWait (instanceId documentName command : string).

(** What these calls give: a value, or the exception their promise is
    rejected with.  [waitUntilAgentOnline] is the result of [waitUntil] on
    the ping status: [None] is [undefined]. *)
Record Services : Type := mkServices {
  getInstanceStatus : string -> Result string;
  getAttachedIamInstanceProfile : string -> Result (option IamInstanceProfile);
  getIAMRoleFromInstanceProfile : string -> Result (option IamRole);
  getDeniedSsmActions : string -> Result (list string);
  promptToAddInlinePolicy : string -> Result bool;
  waitUntilAgentOnline : string -> Result (option bool);
  getTargetPlatformName : string -> Result string;
  getPublicKey : Result string;
  sendCommandAndWait : string -> string -> string -> Result unit
}.

(** A method runs on the calls made so far and gives its outcome and the
    calls made after it. *)
Definition E (A : Type) : Type := list Call -> Outcome A * list Call.

Definition ret {A} (a : A) : E A := fun calls => (Returns a, calls).

Definition bind {A B} (m : E A) (k : A -> E B) : E B := fun calls =>
  match m calls with
  | (Returns a, calls') => k a calls'
  | (Throws e, calls') => (Throws e, calls')
  end.

Notation "x <~ m ; k" := (bind m (fun x => k))
  (at level 100, m at next level, right associativity, only parsing).
Notation "m ;~ k" := (bind m (fun _ => k))
  (at level 100, right associativity, only parsing).

Definition throw {A} (e : Ec2Error) : E A := fun calls => (Throws e, calls).

(** An exception from elsewhere, as a method of this class sees it. *)
Definition settled {A} (r : Result A) : Outcome A :=
  match r with
  | Ok a => Returns a
  | Throw e => Throws (Other e)
  end.

(** [await] of a call. *)
Definition await {A} (call : Call) (result : Result A) : E A := fun calls =>
  (settled result, calls ++ [call]).

Definition try_catch {A} (body : E A) (handle : Ec2Error -> E A) : E A := fun calls =>
  match body calls with
  | (Returns a, calls') => (Returns a, calls')
  | (Throws e, calls') => handle e calls'
  end.

Definition liftResult {A} (r : Result A) : E A := fun calls => (settled r, calls).

(** [s.replace(LF, empty)] with a string pattern: the first line feed
    goes. *)
Fixpoint replaceFirstLF (s : string) : string :=
  match s with
  | "" => ""
  | String c r => if bool_decide (c = Zip.LF) then r else String c (replaceFirstLF r)
  end.

Definition hintComment : string := "#AWSToolkitForVSCode".

Definition remoteAuthorizedKeysPath (remoteUser : RemoteUser) : string :=
  "/home/" +:+ name remoteUser +:+ "/.ssh/authorized_keys".

(** [appendStr] of [sendSshKeyToInstance]. *)
Definition appendStr (remoteUser : RemoteUser) (s : string) : string :=
  "echo " +:+ String Zip.quote (s +:+ String Zip.quote (" >> " +:+ remoteAuthorizedKeysPath remoteUser)).

Definition writeKeyCommand (remoteUser : RemoteUser) (sshPubKey : string) : string :=
  appendStr remoteUser (replaceFirstLF sshPubKey +:+ " " +:+ hintComment).

Section WithServices.

Variable services : Services.

Definition isInstanceRunning (instanceId : string) : E bool :=
  instanceStatus <~ await (GetInstanceStatus instanceId)
                      (getInstanceStatus services instanceId);
  ret (bool_decide (instanceStatus = "running")).

Definition getAttachedIamRole (instanceId : string) : E (option IamRole) :=
  profile <~ await (GetAttachedIamInstanceProfile instanceId)
               (getAttachedIamInstanceProfile services instanceId);
  match profile with
  | Some {| profile_Arn := Some arn |} =>
      if bool_decide (arn = "") then ret None
      else await (GetIAMRoleFromInstanceProfile arn)
             (getIAMRoleFromInstanceProfile services arn)
  | _ => ret None
  end.

Definition hasProperPermissions (IamRoleArn : string) : E bool :=
  deniedActions <~ await (GetDeniedSsmActions IamRoleArn)
                     (getDeniedSsmActions services IamRoleArn);
  ret (bool_decide (length deniedActions = 0)).

Definition throwConnectionError {A} (message : string) (selection : Ec2Selection)
    (code : string) : E A :=
  let generalErrorMessage :=
    "Unable to connect to target instance " +:+ instanceId selection
    +:+ " on region " +:+ region selection +:+ ". " in
  throw (ToolkitErrorWithCode (generalErrorMessage +:+ message) code).

Definition checkForInstanceStatusError (selection : Ec2Selection) : E unit :=
  isInstanceRunning <~ isInstanceRunning (instanceId selection);
  if negb isInstanceRunning then
    throwConnectionError "Ensure the target instance is running." selection "EC2SSMStatus"
  else ret tt.

Definition checkForInstancePermissionsError (selection : Ec2Selection) : E unit :=
  IamRole <~ getAttachedIamRole (instanceId selection);
  match IamRole with
  | None =>
      throwConnectionError ("No IAM role attached to instance: " +:+ instanceId selection)
        selection "EC2SSMPermission"
  | Some IamRole =>
      hasPermission <~ hasProperPermissions (Arn IamRole);
      if negb hasPermission then
        policiesAdded <~ await (PromptToAddInlinePolicy (Arn IamRole))
                           (promptToAddInlinePolicy services (Arn IamRole));
        if negb policiesAdded then throw (CancellationError "user") else ret tt
      else ret tt
  end.

(** [options] are the interval and the timeout, each of which may be
    left out. *)
Definition checkForInstanceSsmError (selection : Ec2Selection)
    (options : option Z * option Z) : E unit :=
  isSsmAgentRunning <~ await (WaitUntilAgentOnline (instanceId selection)
                                (default 500%Z (fst options))
                                (default 5000%Z (snd options)))
                         (waitUntilAgentOnline services (instanceId selection));
  if negb (default false isSsmAgentRunning) then
    throwConnectionError "Is SSM Agent running on the target instance?" selection
      "EC2SSMAgentStatus"
  else ret tt.

Definition checkForStartSessionError (selection : Ec2Selection) : E unit :=
  checkForInstanceStatusError selection;~
  checkForInstancePermissionsError selection;~
  checkForInstanceSsmError selection (None, None).

Definition this_sendCommandAndWait (instanceId command : string) : E unit :=
  await (SendCommandAndWait instanceId "AWS-RunShellScript" command)
    (sendCommandAndWait services instanceId "AWS-RunShellScript" command).

Definition tryCleanKeys (instanceId hintComment : string) (hostOS : Ec2OS)
    (remoteAuthorizedKeysPath : string) : E unit :=
  try_catch
    (deleteExistingKeyCommand <~
       liftResult (getRemoveLinesCommand hintComment hostOS remoteAuthorizedKeysPath);
     this_sendCommandAndWait instanceId deleteExistingKeyCommand)
    (fun e => ret tt).

Definition sendSshKeyToInstance (selection : Ec2Selection) (remoteUser : RemoteUser)
    : E unit :=
  sshPubKey <~ await GetPublicKey (getPublicKey services);
  tryCleanKeys (instanceId selection) hintComment (os remoteUser)
    (remoteAuthorizedKeysPath remoteUser);~
  this_sendCommandAndWait (instanceId selection) (writeKeyCommand remoteUser sshPubKey).

Definition getRemoteUser (instanceId : string) : E RemoteUser :=
  os <~ await (GetTargetPlatformName instanceId) (getTargetPlatformName services instanceId);
  if bool_decide (os = "Amazon Linux") then ret {| name := "ec2-user"; os := AmazonLinux |}
  else if bool_decide (os = "Ubuntu") then ret {| name := "ubuntu"; os := Ubuntu |}
  else
    throw (ToolkitErrorWithCode
             ("Unrecognized OS name " +:+ os +:+ " on instance " +:+ instanceId)
             "UnknownEc2OS").

End WithServices.

(** Services that answer well, and services where the permissions are
    missing, the user declines to add them and the clean-up command fails. *)
Definition healthy : Services :=
  {| getInstanceStatus := fun _ => Ok "running";
     getAttachedIamInstanceProfile := fun _ =>
       Ok (Some {| profile_Arn := Some "arn:aws:iam::1:instance-profile/p" |});
     getIAMRoleFromInstanceProfile := fun _ =>
       Ok (Some {| Arn := "arn:aws:iam::1:role/r" |});
     getDeniedSsmActions := fun _ => Ok [];
     promptToAddInlinePolicy := fun _ => Ok true;
     waitUntilAgentOnline := fun _ => Ok (Some true);
     getTargetPlatformName := fun _ => Ok "Ubuntu";
     getPublicKey := Ok "ssh-ed25519 AAAA";
     sendCommandAndWait := fun _ _ _ => Ok tt |}.

Definition troubled : Services :=
  {| getInstanceStatus := getInstanceStatus healthy;
     getAttachedIamInstanceProfile := getAttachedIamInstanceProfile healthy;
     getIAMRoleFromInstanceProfile := getIAMRoleFromInstanceProfile healthy;
     getDeniedSsmActions := fun _ => Ok ["ssm:UpdateInstanceInformation"];
     promptToAddInlinePolicy := fun _ => Ok false;
     waitUntilAgentOnline := waitUntilAgentOnline healthy;
     getTargetPlatformName := getTargetPlatformName healthy;
     getPublicKey := getPublicKey healthy;
     sendCommandAndWait := fun _ _ command =>
       if startsWith "sed" command then Throw IOError else Ok tt |}.

Definition sampleSelection : Ec2Selection :=
  {| instanceId := "i-0123"; region := "us-east-1" |}.

End Ec2Connect.
(** ** Collecting the files of a workspace *)

Module Workspace.

(** A file that [vscode.workspace.findFiles] has found, with what the
    editor and the file system say of it: the workspace folder it belongs
    to and its path relative to that folder, if it has one; what [fs.stat]
    gives as its size; and its text, which is [None] when it cannot be
    read. *)
Record FoundFile : Type := mkFoundFile {
  file_fsPath : string;
  file_relativePath : option (string * string);
  file_statSize : Result Z;
  file_text : option string
}.

Record CollectFilesResultItem : Type := mkCollectFilesResultItem {
  workspaceFolder : string;
  relativeFilePath : string;
  fileUri : string;
  fileContent : option string;
  fileSizeBytes : Z;
  zipFilePath : string
}.

Record CollectFilesOptions : Type := mkCollectFilesOptions {
  maxTotalSizeBytes : option Z;
  maxFileSizeBytes : option Z;
  includeContent : option bool;
  failOnLimit : option bool;
  filterFn : option (string -> bool)
}.

(** [options?.field]. *)
Definition field {A} (options : option CollectFilesOptions)
    (f : CollectFilesOptions -> option A) : option A :=
  match options with
  | Some o => f o
  | None => None
  end.

(** The files of a source path once the exclude patterns and the ignore
    files are applied, and the prefix of each workspace folder. *)
Record Folders : Type := mkFolders {
  findFiles : string -> Result (list FoundFile);
  workspaceToPrefix : string -> option string
}.

Definition contentLengthError : Exn :=
  ToolkitError
    "The project you have selected for source code is too large to use as context. Please select a different folder to use".

Section WithFolders.

Variable folders : Folders.
Variable options : option CollectFilesOptions.

Definition prefixWithFolderPrefix (folder path : string) : Result string :=
  match workspaceToPrefix folders folder with
  | None => Throw (ToolkitError ("Failed to find prefix for workspace folder " +:+ folder))
  | Some prefix => Ok (if bool_decide (prefix = "") then path else prefix +:+ "/" +:+ path)
  end.

Definition the_includeContent : bool := default true (field options includeContent).
Definition the_maxFileSizeBytes : Z :=
  default (1024 * 1024 * 10)%Z (field options maxFileSizeBytes).
Definition maxRepoSizeBytes : Z := (200 * 1024 * 1024)%Z.
Definition the_failOnLimit : bool := default true (field options failOnLimit).
Definition maxSizeBytes : Z := default maxRepoSizeBytes (field options maxTotalSizeBytes).

(** [options?.filterFn && options.filterFn(relativePath)]. *)
Definition filteredOut (relativePath : string) : bool :=
  match field options filterFn with
  | Some f => f relativePath
  | None => false
  end.

(** The inner loop, on [totalSizeBytes] and [storage]. *)
Fixpoint collectFrom (files : list FoundFile) (totalSizeBytes : Z)
    (storage : list CollectFilesResultItem) : Result (Z * list CollectFilesResultItem) :=
  match files with
  | [] => Ok (totalSizeBytes, storage)
  | file :: files' =>
      match file_relativePath file with
      | None => collectFrom files' totalSizeBytes storage
      | Some (folder, relativePath) =>
          if filteredOut relativePath then collectFrom files' totalSizeBytes storage
          else
            match file_statSize file with
            | Throw e => Throw e
            | Ok size =>
                if the_failOnLimit && (totalSizeBytes + size >? maxSizeBytes)%Z
                then Throw contentLengthError
                else if (size >? the_maxFileSizeBytes)%Z
                then collectFrom files' totalSizeBytes storage
                else
                  match prefixWithFolderPrefix folder relativePath with
                  | Throw e => Throw e
                  | Ok zipPath =>
                      let result content :=
                        {| workspaceFolder := folder;
                           relativeFilePath := relativePath;
                           fileUri := file_fsPath file;
                           fileContent := content;
                           fileSizeBytes := size;
                           zipFilePath := zipPath |} in
                      if the_includeContent then
                        match file_text file with
                        | None => collectFrom files' totalSizeBytes storage
                        | Some content =>
                            collectFrom files' (totalSizeBytes + size)
                              (storage ++ [result (Some content)])
                        end
                      else
                        collectFrom files' (totalSizeBytes + size)
                          (storage ++ [result None])
                  end
            end
      end
  end.

(** The outer loop. *)
Fixpoint collectRoots (sourcePaths : list string) (totalSizeBytes : Z)
    (storage : list CollectFilesResultItem) : Result (list CollectFilesResultItem) :=
  match sourcePaths with
  | [] => Ok storage
  | rootPath :: sourcePaths' =>
      match findFiles folders rootPath with
      | Throw e => Throw e
      | Ok files =>
          match collectFrom files totalSizeBytes storage with
          | Throw e => Throw e
          | Ok (totalSizeBytes', storage') =>
              collectRoots sourcePaths' totalSizeBytes' storage'
          end
      end
  end.

Definition collectFiles (sourcePaths : list string) : Result (list CollectFilesResultItem) :=
  collectRoots sourcePaths 0 [].

(** The files that the loop examines: those with a relative path that
    the filter lets through. *)
Definition examined (file : FoundFile) : bool :=
  match file_relativePath file with
  | None => false
  | Some (_, relativePath) => negb (filteredOut relativePath)
  end.

End WithFolders.

(** The files of all the source paths, where they can be listed. *)
Definition found (folders : Folders) (sourcePaths : list string) : list FoundFile :=
  concat (map (fun rootPath => match findFiles folders rootPath with
                               | Ok files => files
                               | Throw _ => []
                               end) sourcePaths).

Definition totalSize (storage : list CollectFilesResultItem) : Z :=
  foldr (fun item total => (fileSizeBytes item + total)%Z) 0%Z storage.

(** A folder with a small file, a file above the size of one file, and a
    file that cannot be read. *)
Definition sampleFolders : Folders :=
  {| findFiles := fun rootPath =>
       if bool_decide (rootPath = "/w")
       then Ok [ {| file_fsPath := "/w/a.ts"; file_relativePath := Some ("w", "a.ts");
                    file_statSize := Ok 10%Z; file_text := Some "let a = 1" |};
                 {| file_fsPath := "/w/big.bin"; file_relativePath := Some ("w", "big.bin");
                    file_statSize := Ok 60%Z; file_text := Some "" |};
                 {| file_fsPath := "/w/locked"; file_relativePath := Some ("w", "locked");
                    file_statSize := Ok 5%Z; file_text := None |} ]
       else Ok [];
     workspaceToPrefix := fun folder => if bool_decide (folder = "w") then Some "" else None |}.

Definition sampleOptions : option CollectFilesOptions :=
  Some {| maxTotalSizeBytes := Some 100%Z; maxFileSizeBytes := Some 50%Z;
          includeContent := None; failOnLimit := None; filterFn := None |}.

End Workspace.
(** ** Further sample inputs *)

Module MoreSamples.
Import Chat ChatCalls Streaming Samples.

(** A request with one user message and the conversation id the caller
    knows. *)
Definition requestFor (id : option string) (text : string)
    : GenerateAssistantResponseRequest :=
  {| conversationState :=
       Some {| cs_conversationId := id;
               currentMessage := Some (userSays text);
               cs_rest := [("chatTriggerType", "MANUAL")] |};
     req_rest := [] |}.

(** A service that answers every request in the conversation
    conversation-2. *)
Definition answeringService : SsoEnv :=
  {| createCodeWhispererChatStreamingClient := Ok tt;
     generateAssistantResponse := fun _ =>
       Ok {| generateAssistantResponseResponse := Some 1;
             out_conversationId := Some "conversation-2";
             out_requestId := Some "request-1" |} |}.

(** A handler in the middle of a call: client created, response being
    streamed. *)
Definition streamingWorld : World :=
  {| handler := {| streamingClient := Some 1;
                   Streaming.conversationId := "conversation-1";
                   messageId := "message-1";
                   isStreaming := true;
                   abortController := Some 7 |};
     trace := [] |}.

End MoreSamples.
(** * Properties *)

(** ** The chat session *)

Module ChatTheorems.
Import Chat Samples.

(** *** The setter never returns *)

Lemma set_chatHistory_throws stack this h :
  set_chatHistory stack this h = (Throw stackOverflow, this).
Proof. induction stack as [|stack IH]; simpl; [reflexivity | exact IH]. Qed.

Lemma trimHistory_over_cap stack this nextMessage :
  MAX_CONVERSATION_STATE_HISTORY_LEN < length (chatHistory this) ->
  trimHistory stack this nextMessage = (Throw stackOverflow, (this, nextMessage)).
Proof.
  intros Hlen. unfold trimHistory.
  apply Nat.ltb_lt in Hlen. rewrite Hlen.
  rewrite !set_chatHistory_throws.
  destruct (negb _); reflexivity.
Qed.

Lemma trimHistory_within_cap stack this nextMessage :
  length (chatHistory this) <= MAX_CONVERSATION_STATE_HISTORY_LEN ->
  trimHistory stack this nextMessage = (Ok tt, (this, nextMessage)).
Proof.
  intros Hlen. unfold trimHistory.
  apply Nat.ltb_ge in Hlen. rewrite Hlen. reflexivity.
Qed.

(** What [trimHistory] can return at all: nothing has changed. *)
Lemma trimHistory_Ok_inv stack this nextMessage this1 next1 :
  trimHistory stack this nextMessage = (Ok tt, (this1, next1)) ->
  this1 = this /\ next1 = nextMessage
  /\ length (chatHistory this) <= MAX_CONVERSATION_STATE_HISTORY_LEN.
Proof.
  intros H.
  destruct (Nat.le_gt_cases (length (chatHistory this)) MAX_CONVERSATION_STATE_HISTORY_LEN)
    as [Hle | Hgt].
  - rewrite (trimHistory_within_cap _ _ _ Hle) in H. by simplify_eq.
  - rewrite (trimHistory_over_cap _ _ _ Hgt) in H. discriminate.
Qed.

Lemma fixHistory_over_cap stack this nextMessage :
  MAX_CONVERSATION_STATE_HISTORY_LEN < length (chatHistory this) ->
  fixHistory stack this nextMessage = (Throw stackOverflow, (this, nextMessage)).
Proof.
  intros Hlen. unfold fixHistory. by rewrite trimHistory_over_cap.
Qed.

Lemma fixHistory_within_cap stack this nextMessage :
  length (chatHistory this) <= MAX_CONVERSATION_STATE_HISTORY_LEN ->
  fixHistory stack this nextMessage =
    (Ok tt, (dropTrailingUser this,
             addCancelledToolResults (dropTrailingUser this) nextMessage)).
Proof.
  intros Hlen. unfold fixHistory. by rewrite trimHistory_within_cap.
Qed.

(** *** Histories on which the documented invariants fail *)

(** C1 (cap of 100 messages, oldest dropped): on a history of 102
    messages, whatever the stack depth and the next message,
    [fixHistory] does not return: the setter of [chatHistory] calls
    itself until the stack overflows, and the history still has its 102
    messages, although dropping the two oldest would leave a valid
    history of 100. *)
Theorem fixHistory_long_history_overflows :
  forall stack nextMessage,
    fixHistory stack (sessionWith longHistory) nextMessage
      = (Throw stackOverflow, (sessionWith longHistory, nextMessage))
    /\ length (chatHistory (sessionWith longHistory)) = 102
    /\ findIndex isValidStart (slice 1 (chatHistory (sessionWith longHistory))) = 1%Z
    /\ length (slice 2 (chatHistory (sessionWith longHistory))) = 100.
Proof.
  intros stack nextMessage. split; [|by vm_compute].
  apply fixHistory_over_cap. vm_compute. lia.
Qed.

(** C2 (last message is from the assistant): on a history that ends in
    two user messages, [fixHistory] returns and the history it leaves
    ends in a user message: only one message is popped. *)
Theorem fixHistory_leaves_trailing_user :
  forall stack,
    fixHistory stack
      (sessionWith [userSays "a"; assistantSays "b"; userSays "c"; userSays "d"]) None
    = (Ok tt, (sessionWith [userSays "a"; assistantSays "b"; userSays "c"], None))
    /\ last [userSays "a"; assistantSays "b"; userSays "c"] = Some (userSays "c").
Proof.
  intros stack. split; [|reflexivity].
  rewrite fixHistory_within_cap; [reflexivity | vm_compute; lia].
Qed.

(** C3 (first message is a user message without tool results): a
    history of two messages that starts with a user message carrying a
    tool result is returned as it is. *)
Theorem fixHistory_keeps_tool_result_head :
  forall stack,
    fixHistory stack
      (sessionWith [userInputMessage (userReturns ["t1"]); assistantSays "done"]) None
    = (Ok tt,
       (sessionWith [userInputMessage (userReturns ["t1"]); assistantSays "done"], None))
    /\ head [userInputMessage (userReturns ["t1"]); assistantSays "done"]
       = Some (userInputMessage (userReturns ["t1"]))
    /\ noToolResults (userInputMessageContext (userReturns ["t1"])) = false.
Proof.
  intros stack. split; [|by vm_compute].
  rewrite fixHistory_within_cap; [reflexivity | vm_compute; lia].
Qed.

(** C5 (an overflowing history with no valid start is cleared and the
    tool results of the next message are abandoned): on 101 messages of
    which none after the first is a valid start, with a next message that
    carries a tool result, [fixHistory] throws from the setter: the
    history is not cleared and the next message is not touched. *)
Theorem fixHistory_unanchored_history_overflows :
  forall stack,
    fixHistory stack (sessionWith unanchoredHistory) (Some (userReturns ["t1"]))
      = (Throw stackOverflow,
         (sessionWith unanchoredHistory, Some (userReturns ["t1"])))
    /\ length unanchoredHistory = 101
    /\ findIndex isValidStart (slice 1 unanchoredHistory) = (-1)%Z.
Proof.
  intros stack. split; [|by vm_compute].
  apply fixHistory_over_cap. vm_compute. lia.
Qed.

(** *** Cancelled tool results *)



(** *** Pushing to the history *)

(** C9: [pushToChatHistory] leaves the session as it is when the message
    is undefined; otherwise the history grows by one message at its end
    and nothing else of the session changes.  A user message is stored
    with a context whose [tools] is undefined, and with its content, its
    other fields and the other fields of its context as they were (the
    fields of an absent context read as undefined or empty); any other
    message is stored as it is. *)
Theorem pushToChatHistory_frame :
  (forall this, pushToChatHistory this None = this)
  /\ (forall this message,
        exists stored,
          chatHistory (pushToChatHistory this (Some message))
            = chatHistory this ++ [stored]
          /\ sessionId (pushToChatHistory this (Some message)) = sessionId this
          /\ _toolUse (pushToChatHistory this (Some message)) = _toolUse this
          /\ match message with
             | userInputMessage u =>
                 exists u' c',
                   stored = userInputMessage u'
                   /\ content u' = content u
                   /\ uim_rest u' = uim_rest u
                   /\ userInputMessageContext u' = Some c'
                   /\ tools c' = None
                   /\ toolResults c' = userInputMessageContext u ≫= toolResults
                   /\ ctx_rest c' = from_option ctx_rest [] (userInputMessageContext u)
             | _ => stored = message
             end).
Proof.
  split; [reflexivity|].
  intros this message. exists (formatChatHistoryMessage message).
  split; [reflexivity|]. split; [reflexivity|]. split; [reflexivity|].
  destruct message as [u | a | tag]; [|reflexivity..].
  exists {| content := content u;
            userInputMessageContext :=
              Some (spreadContextWithoutTools (userInputMessageContext u));
            uim_rest := uim_rest u |},
         (spreadContextWithoutTools (userInputMessageContext u)).
  destruct u as [text [c|] rest]; cbn; repeat (split; [reflexivity|]); reflexivity.
Qed.

End ChatTheorems.

(** ** The streaming handler *)

Module StreamingTheorems.
Import Streaming Samples.

Create HintDb keeps discriminated.

Lemma keeps_ret {A} (a : A) : keepsHandler (ret a).
Proof. intros w. reflexivity. Qed.

Lemma keeps_throw {A} e : keepsHandler (@throw A e).
Proof. intros w. reflexivity. Qed.

Lemma keeps_suspend {A} : keepsHandler (@suspend A).
Proof. intros w. reflexivity. Qed.

Lemma keeps_this : keepsHandler this.
Proof. intros w. reflexivity. Qed.

Lemma keeps_call ev : keepsHandler (call ev).
Proof. intros w. reflexivity. Qed.

Lemma keeps_lift {A} (r : Result A) : keepsHandler (lift r).
Proof. intros w. unfold lift. destruct r; reflexivity. Qed.

Lemma keeps_await {A} (r : Outcome A) : keepsHandler (await r).
Proof. intros w. reflexivity. Qed.

Lemma keeps_bind {A B} (m : M A) (k : A -> M B) :
  keepsHandler m -> (forall a, keepsHandler (k a)) -> keepsHandler (bind m k).
Proof.
  intros Hm Hk w. unfold bind. specialize (Hm w).
  destruct (m w) as [[a | e |] w1]; simpl in *; try exact Hm.
  rewrite Hk. exact Hm.
Qed.

Lemma keeps_try_catch_finally {A} (body : M A) handle fin :
  keepsHandler body -> (forall e, keepsHandler (handle e)) -> keepsHandler fin ->
  keepsHandler (try_catch_finally body handle fin).
Proof.
  intros Hb Hh Hf w. unfold try_catch_finally. specialize (Hb w).
  destruct (body w) as [[a | e |] w1]; simpl in *.
  - specialize (Hf w1). destruct (fin w1) as [[u | e' |] w2]; simpl in *; congruence.
  - specialize (Hh e w1).
    destruct (handle e w1) as [[a | e' |] w2]; simpl in *; try congruence.
    + specialize (Hf w2). destruct (fin w2) as [[u | e'' |] w3]; simpl in *; congruence.
    + specialize (Hf w2). destruct (fin w2) as [[u | e'' |] w3]; simpl in *; congruence.
  - exact Hb.
Qed.

Lemma keeps_asListener m : keepsHandler m -> keepsHandler (asListener m).
Proof.
  intros Hm w. unfold asListener. specialize (Hm w).
  destruct (m w) as [[a | e |] w1]; simpl in *; exact Hm.
Qed.

#[local] Hint Resolve keeps_ret keeps_throw keeps_suspend keeps_this keeps_call
  keeps_lift keeps_await keeps_asListener : keeps.
#[local] Hint Extern 2 (keepsHandler (bind _ _)) =>
  apply keeps_bind; [| intros ?] : keeps.
#[local] Hint Extern 2 (keepsHandler (try_catch_finally _ _ _)) =>
  apply keeps_try_catch_finally; [| intros ? |] : keeps.
#[local] Hint Extern 2 (keepsHandler (try_catch _ _)) =>
  apply keeps_try_catch_finally; [| intros ? |] : keeps.

Lemma keeps_messenger o ev : keepsHandler (messenger o ev).
Proof. unfold messenger. auto with keeps. Qed.

Lemma keeps_cancelStreaming : keepsHandler cancelStreaming.
Proof. intros w. unfold cancelStreaming, bind, this. cbn.
  destruct (isStreaming (handler w)), (abortController (handler w)); reflexivity. Qed.

#[local] Hint Resolve keeps_messenger keeps_cancelStreaming : keeps.

Lemma keeps_handleChunk o tabId fullResponse content :
  keepsHandler (handleChunk o tabId fullResponse content).
Proof.
  unfold handleChunk. destruct content as [[|c s]|]; auto 10 with keeps.
Qed.

#[local] Hint Resolve keeps_handleChunk : keeps.

Lemma keeps_streamEvents o tabId evs :
  forall fullResponse, keepsHandler (streamEvents o tabId fullResponse evs).
Proof.
  induction evs as [|[content|] evs IH]; intros fullResponse; simpl; auto with keeps.
Qed.

#[local] Hint Resolve keeps_streamEvents : keeps.

Lemma keeps_handleComplete o tabId fullResponse :
  keepsHandler (handleComplete o tabId fullResponse).
Proof. unfold handleComplete. auto 10 with keeps. Qed.

#[local] Hint Resolve keeps_handleComplete : keeps.

Lemma keeps_streamResponse o content tabId :
  keepsHandler (streamResponse o content tabId).
Proof.
  unfold streamResponse. apply keeps_bind; [auto with keeps|]. intros h.
  destruct (streamingClient h); [|auto with keeps].
  destruct (o_settlement o); auto 10 with keeps.
Qed.

#[local] Hint Resolve keeps_streamResponse : keeps.

(** *** The try statement of [processUserPrompt] *)

Lemma handler_assign_bind {A} f (m : M A) w :
  handler (snd (bind (assign f) (fun _ => m) w))
  = handler (snd (m {| handler := f (handler w); trace := trace w |})).
Proof. reflexivity. Qed.

Lemma tryBlock_handler userPrompt tabId o w :
  handler (snd (tryBlock userPrompt tabId o w)) = streamingFrom o (handler w).
Proof.
  unfold tryBlock. rewrite !handler_assign_bind.
  match goal with |- handler (snd (?m ?w2)) = _ =>
    assert (keepsHandler m) as Hk by auto 20 with keeps; rewrite Hk end.
  reflexivity.
Qed.

Lemma keeps_catchBlock tabId o e : keepsHandler (catchBlock tabId o e).
Proof. unfold catchBlock. auto with keeps. Qed.

(** The handler the try statement leaves, by outcome. *)
Lemma try_statement_handler userPrompt tabId o w :
  let rw :=
    try_catch_finally (tryBlock userPrompt tabId o) (catchBlock tabId o) finallyBlock w in
  (fst rw = Suspended /\ handler (snd rw) = streamingFrom o (handler w))
  \/ (completed (fst rw) = true /\ handler (snd rw) = settledFrom o (handler w)).
Proof.
  cbn zeta. unfold settledFrom. rewrite <- (tryBlock_handler userPrompt tabId).
  unfold try_catch_finally.
  destruct (tryBlock userPrompt tabId o w) as [[a | e |] w1]; cbn.
  - right. split; reflexivity.
  - pose proof (keeps_catchBlock tabId o e w1) as Hh.
    destruct (catchBlock tabId o e w1) as [[a | e' |] w2]; cbn in *; rewrite <- Hh.
    + right. split; reflexivity.
    + right. split; reflexivity.
    + left. split; reflexivity.
  - left. split; reflexivity.
Qed.

(** The three ways [ensureClient] can go. *)
Lemma ensureClient_cases o w :
  (streamingClient (handler w) <> None /\ ensureClient o w = (Returned tt, w))
  \/ (exists client,
        streamingClient (handler w) = None
        /\ o_createClient o = Returned client
        /\ ensureClient o w
           = (Returned tt,
              {| handler := set_conversationId (o_conversationId o)
                              (set_streamingClient (Some client) (handler w));
                 trace := trace w |}))
  \/ (streamingClient (handler w) = None
      /\ (forall client, o_createClient o <> Returned client)
      /\ ensureClient o w
         = (match o_createClient o with Thrown e => Thrown e | _ => Suspended end, w)).
Proof.
  unfold ensureClient, bind, this.
  destruct (streamingClient (handler w)) as [client|] eqn:Hclient.
  - left. split; [congruence | reflexivity].
  - right.
    unfold initialize, try_catch, try_catch_finally, bind, await, assign, throw, ret.
    destruct (o_createClient o) as [client | e |] eqn:Hcreate; cbn.
    + left. exists client. split; [reflexivity|]. split; reflexivity.
    + right. split; [reflexivity|]. split; [congruence | reflexivity].
    + right. split; [reflexivity|]. split; [congruence | reflexivity].
Qed.

(** The handler [processUserPrompt] leaves, by the way the call goes. *)
Lemma processUserPrompt_handler userPrompt tabId o w :
  let rw := processUserPrompt userPrompt tabId o w in
  (streamingClient (handler w) = None
   /\ (forall client, o_createClient o <> Returned client)
   /\ rw = (match o_createClient o with Thrown e => Thrown e | _ => Suspended end, w))
  \/ (exists h1,
        (streamingClient (handler w) <> None /\ h1 = handler w
         \/ exists client,
              streamingClient (handler w) = None
              /\ o_createClient o = Returned client
              /\ h1 = set_conversationId (o_conversationId o)
                        (set_streamingClient (Some client) (handler w)))
        /\ (fst rw = Suspended /\ handler (snd rw) = streamingFrom o h1
            \/ completed (fst rw) = true /\ handler (snd rw) = settledFrom o h1)).
Proof.
  cbn zeta. unfold processUserPrompt, bind.
  destruct (ensureClient_cases o w)
    as [[Hsome ->] | [(client & Hnone & Hcreate & ->) | (Hnone & Hcreate & ->)]].
  - right. exists (handler w). split; [left; split; [exact Hsome | reflexivity]|].
    exact (try_statement_handler userPrompt tabId o w).
  - right. eexists. split.
    { right. exists client. split; [exact Hnone|]. split; [exact Hcreate | reflexivity]. }
    match goal with |- context [try_catch_finally _ _ _ ?w1] =>
      exact (try_statement_handler userPrompt tabId o w1) end.
  - left. split; [exact Hnone|]. split; [exact Hcreate|].
    destruct (o_createClient o) as [client | e |]; [by destruct (Hcreate client) | reflexivity..].
Qed.

(** Between calls, a handler without a client is idle. *)
Lemma reachable_idle_without_client w :
  reachable w -> streamingClient (handler w) = None -> idle (handler w).
Proof.
  induction 1 as [| w userPrompt tabId o Hw IH | w Hw IH]; intros Hnone.
  - split; reflexivity.
  - destruct (processUserPrompt_handler userPrompt tabId o w)
      as [(Hc & _ & Hsame) | (h1 & Hh1 & Hpost)].
    + rewrite Hsame in *. auto.
    + exfalso.
      assert (streamingClient h1 <> None) as Hsome.
      { destruct Hh1 as [[Hc ->] | (client & _ & _ & ->)]; [exact Hc | discriminate]. }
      destruct Hpost as [[_ Hpost] | [_ Hpost]]; rewrite Hpost in Hnone;
        apply Hsome; exact Hnone.
  - rewrite keeps_cancelStreaming in *. auto.
Qed.

Lemma cancelStreaming_aborts w controller :
  isStreaming (handler w) = true ->
  abortController (handler w) = Some controller ->
  cancelStreaming w
  = (Returned tt, {| handler := handler w; trace := trace w ++ [Abort controller] |}).
Proof.
  intros Hs Hc. unfold cancelStreaming, bind, this. rewrite Hs, Hc. reflexivity.
Qed.

Lemma cancelStreaming_noop w :
  isStreaming (handler w) = false \/ abortController (handler w) = None ->
  cancelStreaming w = (Returned tt, w).
Proof.
  intros H. unfold cancelStreaming, bind, this.
  destruct H as [-> | ->]; [reflexivity|].
  destruct (isStreaming (handler w)); reflexivity.
Qed.


(** The calls the sample run makes, in order: the chunks become partial
    updates of one message, and the cancellation in between aborts the
    controller given to the request. *)
Example processUserPrompt_sample_trace :
  trace (snd (processUserPrompt "hi" "tab-1" sampleOracle newWorld))
  = [ SendChatInputEnabled "tab-1" false;
      SendMessage "hi" "tab-1" "prompt" None;
      SendMessage "" "tab-1" "answer-stream" (Some "message-1");
      GenerateAssistantResponse "conversation-1" "hi" (Some 7);
      SendShortSummary "Hello" "answer-stream" "tab-1" "message-1" false;
      Abort 7;
      SendShortSummary "Hello, world" "answer-stream" "tab-1" "message-1" false;
      SendShortSummary "Hello, world" "answer" "tab-1" "message-1" true;
      SendChatInputEnabled "tab-1" true;
      SendChatInputEnabled "tab-1" true ].
Proof. reflexivity. Qed.

(** While the stream hangs the handler is streaming, and a cancellation
    then aborts its controller. *)
Example cancelStreaming_while_hanging :
  fst (processUserPrompt "hi" "tab-1" hangingOracle newWorld) = Suspended
  /\ last (trace (snd (cancelStreaming
                         (snd (processUserPrompt "hi" "tab-1" hangingOracle newWorld)))))
     = Some (Abort 7).
Proof. split; reflexivity. Qed.

(** On a new handler a cancellation does nothing. *)
Example cancelStreaming_when_idle :
  cancelStreaming newWorld = (Returned tt, newWorld).
Proof. reflexivity. Qed.

End StreamingTheorems.

(** ** The zip utility *)

Module ZipTheorems.
Import Zip Samples.

(** *** Lines *)

Lemma consHead_splitLF_nonempty s : splitLF s <> [].
Proof.
  destruct s as [|c r]; simpl; [discriminate|].
  case_bool_decide; [discriminate|].
  destruct (splitLF r); discriminate.
Qed.

Lemma splitLF_noLF s : Forall noLF (splitLF s).
Proof.
  induction s as [|c r IH]; simpl.
  - repeat constructor.
  - case_bool_decide as Hc.
    + constructor; [exact I | exact IH].
    + destruct (splitLF r) as [|p ps]; simpl.
      * repeat constructor. exact Hc.
      * inversion IH; subst. constructor; [split; assumption | assumption].
Qed.

Lemma splitLF_line s : noLF s -> splitLF s = [s].
Proof.
  induction s as [|c r IH]; simpl; [reflexivity|].
  intros [Hc Hr]. rewrite bool_decide_false by exact Hc.
  rewrite (IH Hr). reflexivity.
Qed.

Lemma splitLF_line_then s rest :
  noLF s -> splitLF (s +:+ String LF rest) = s :: splitLF rest.
Proof.
  induction s as [|c r IH]; simpl.
  - intros _. reflexivity.
  - intros [Hc Hr]. rewrite bool_decide_false by exact Hc.
    rewrite (IH Hr). reflexivity.
Qed.

(** Splitting what [join] has built gives the lines back. *)
Lemma splitLF_joinLF lines :
  lines <> [] -> Forall noLF lines -> splitLF (joinLF lines) = lines.
Proof.
  induction lines as [|l ls IH]; [congruence|].
  intros _ Hall. inversion Hall as [|? ? Hl Hls]; subst.
  destruct ls as [|l2 ls].
  - simpl. apply splitLF_line, Hl.
  - change (joinLF (l :: l2 :: ls)) with (l +:+ String LF (joinLF (l2 :: ls))).
    rewrite splitLF_line_then by exact Hl.
    rewrite IH; [reflexivity | discriminate | exact Hls].
Qed.

(** Joining the pieces of a split gives the string back. *)
Lemma joinLF_splitLF s : joinLF (splitLF s) = s.
Proof.
  induction s as [|c r IH]; simpl; [reflexivity|].
  case_bool_decide as Hc.
  - subst c. pose proof (consHead_splitLF_nonempty r) as Hne.
    destruct (splitLF r) as [|p ps]; [congruence|].
    simpl in *. rewrite IH. reflexivity.
  - pose proof (consHead_splitLF_nonempty r) as Hne.
    destruct (splitLF r) as [|p ps]; [congruence|].
    destruct ps as [|p2 ps]; simpl in *; rewrite <- IH; reflexivity.
Qed.

(** *** The rewriting of one line *)

Lemma spanNotQuote_app s :
  fst (spanNotQuote s) +:+ snd (spanNotQuote s) = s.
Proof.
  induction s as [|c r IH]; simpl; [reflexivity|].
  case_bool_decide; [reflexivity|].
  destruct (spanNotQuote r) as [run rest]. simpl in *. by rewrite <- IH.
Qed.

Lemma matchQuotedPath_app x s p1 rest :
  matchQuotedPath x s = Some (p1, rest) -> p1 +:+ rest = s.
Proof.
  unfold matchQuotedPath.
  destruct s as [|c0 [|c1 [|c2 r]]]; try discriminate.
  destruct (_ && _ && _); [|discriminate].
  pose proof (spanNotQuote_app r) as Happ.
  destruct (spanNotQuote r) as [run rest']. simpl in Happ.
  intros [= <- <-]. by rewrite <- Happ.
Qed.

(** Replacing each match by its own text changes nothing, whatever the
    fuel. *)
Lemma replaceWithGroup1_id fuel x s : replaceWithGroup1 fuel x s = s.
Proof.
  revert s. induction fuel as [|fuel IH]; intros s; simpl; [reflexivity|].
  destruct (matchQuotedPath x s) as [[p1 rest]|] eqn:Hm.
  - rewrite IH. exact (matchQuotedPath_app x s p1 rest Hm).
  - destruct s as [|c r]; [reflexivity|]. by rewrite IH.
Qed.

Lemma rewriteLine_eq line :
  rewriteLine line = removeQuotes (replaceDoubleBackslash line).
Proof. unfold rewriteLine. by rewrite !replaceWithGroup1_id. Qed.

Lemma slash_not_LF : slash <> LF.
Proof. discriminate. Qed.

Lemma replaceDoubleBackslash_noLF s : noLF s -> noLF (replaceDoubleBackslash s).
Proof.
  assert (forall n s, String.length s <= n -> noLF s -> noLF (replaceDoubleBackslash s))
    as Hgen.
  { intros n. induction n as [|n IH]; intros s0 Hlen Hs0.
    - destruct s0; [exact I | simpl in Hlen; lia].
    - destruct s0 as [|c [|c2 r2]]; simpl in *; [exact I | tauto |].
      destruct Hs0 as (Hc & Hc2 & Hr2).
      destruct (_ && _).
      + split; [exact slash_not_LF|]. apply IH; [lia | exact Hr2].
      + split; [exact Hc|]. apply (IH (String c2 r2)); [simpl; lia | split; assumption]. }
  apply (Hgen (String.length s)). lia.
Qed.

Lemma removeQuotes_noLF s : noLF s -> noLF (removeQuotes s).
Proof.
  induction s as [|c r IH]; simpl; [done|].
  intros [Hc Hr]. case_bool_decide; [auto | split; auto].
Qed.

Lemma rewriteLine_noLF line : noLF line -> noLF (rewriteLine line).
Proof.
  intros H. rewrite rewriteLine_eq.
  by apply removeQuotes_noLF, replaceDoubleBackslash_noLF.
Qed.

(** The lines of the output of [rewriteDiff]. *)
Lemma splitLF_rewriteDiff inputStr :
  splitLF (rewriteDiff inputStr)
  = map rewriteLine (take 5 (splitLF inputStr)) ++ drop 5 (splitLF inputStr).
Proof.
  unfold rewriteDiff. cbn zeta.
  pose proof (consHead_splitLF_nonempty inputStr) as Hne.
  pose proof (splitLF_noLF inputStr) as Hall.
  apply splitLF_joinLF.
  - destruct (splitLF inputStr); [congruence | discriminate].
  - apply Forall_app. split.
    + apply Forall_map. apply Forall_take.
      eapply Forall_impl; [exact Hall|]. apply rewriteLine_noLF.
    + by apply Forall_drop.
Qed.


(** *** Size limits *)

Lemma gtb_true (a b : Z) : (a >? b)%Z = true <-> (a > b)%Z.
Proof. rewrite Z.gtb_ltb, Z.ltb_lt. lia. Qed.

Lemma reachSizeLimit_file P size scope :
  scope = FILE_AUTO \/ scope = FILE_ON_DEMAND ->
  reachSizeLimit P size scope = true <-> (size > fileScanPayloadSizeLimitBytes P)%Z.
Proof.
  intros [-> | ->]; unfold reachSizeLimit; simpl; apply gtb_true.
Qed.

Lemma reachSizeLimit_project P size :
  reachSizeLimit P size PROJECT = true <-> (size > projectScanPayloadSizeLimitBytes P)%Z.
Proof. unfold reachSizeLimit; simpl; apply gtb_true. Qed.

Lemma willReachSizeLimit_spec P current adding :
  willReachSizeLimit P current adding = true
  <-> (current + adding > projectScanPayloadSizeLimitBytes P)%Z.
Proof. unfold willReachSizeLimit; simpl; apply gtb_true. Qed.

(** [processTextFile] either throws [ProjectSizeExceededError] and changes
    nothing, or returns. *)
Lemma processTextFile_throws P this zip uri fileContent languageCount zipEntryPath :
  let call := processTextFile P this zip uri fileContent languageCount zipEntryPath in
  ((_totalSize this > projectScanPayloadSizeLimitBytes P)%Z
   \/ (_totalSize this + byteLength P fileContent > projectScanPayloadSizeLimitBytes P)%Z)
  /\ call = (Throw ProjectSizeExceededError, (this, zip, languageCount))
  \/ ~ ((_totalSize this > projectScanPayloadSizeLimitBytes P)%Z
        \/ (_totalSize this + byteLength P fileContent
              > projectScanPayloadSizeLimitBytes P)%Z)
     /\ fst call = Ok tt.
Proof.
  cbn zeta. unfold processTextFile.
  destruct (reachSizeLimit P (_totalSize this) PROJECT
            || willReachSizeLimit P (_totalSize this) (byteLength P fileContent))
    eqn:Hlimit.
  - left. split; [|reflexivity].
    apply orb_true_iff in Hlimit as [H | H];
      [left; by apply reachSizeLimit_project | right; by apply willReachSizeLimit_spec].
  - right. split; [|reflexivity].
    apply orb_false_iff in Hlimit as [H1 H2].
    intros [H | H].
    + apply reachSizeLimit_project in H. congruence.
    + apply willReachSizeLimit_spec in H. congruence.
Qed.

(** C7: (1) [processTextFile] throws [ProjectSizeExceededError] exactly
    when the accumulated size is already above the project limit or
    adding the byte size of the file takes it strictly above; (2) when it
    throws, the object (with [_totalSize], [_totalLines] and
    [_pickedSourceFiles]), the zip stream and the language counts are as
    before the call; (3) for the scopes FILE_AUTO and FILE_ON_DEMAND,
    [zipFile] on a file throws [FileSizeExceededError] exactly when the
    content and the size of the file could be read and the accumulated
    size plus that size is strictly above the file limit. *)
Theorem payload_limits_raise_errors
    P this zip uri fileContent languageCount zipEntryPath fileUri scope env :
  scope = FILE_AUTO \/ scope = FILE_ON_DEMAND ->
  (fst (processTextFile P this zip uri fileContent languageCount zipEntryPath)
     = Throw ProjectSizeExceededError
   <-> (_totalSize this > projectScanPayloadSizeLimitBytes P)%Z
       \/ (_totalSize this + byteLength P fileContent
             > projectScanPayloadSizeLimitBytes P)%Z)
  /\ (fst (processTextFile P this zip uri fileContent languageCount zipEntryPath)
       = Throw ProjectSizeExceededError ->
      snd (processTextFile P this zip uri fileContent languageCount zipEntryPath)
       = (this, zip, languageCount))
  /\ (fst (zipFile P this (Some fileUri) scope env) = Throw FileSizeExceededError
      <-> exists content size,
            textContent env = Some content
            /\ statSize env = Some size
            /\ (_totalSize this + size > fileScanPayloadSizeLimitBytes P)%Z).
Proof.
  intros Hscope.
  pose proof (processTextFile_throws P this zip uri fileContent languageCount zipEntryPath)
    as Htext. cbn zeta in Htext.
  split; [|split].
  - destruct Htext as [[Hover ->] | [Hunder ->]]; simpl.
    + split; [intros _; exact Hover | reflexivity].
    + split; [discriminate | intros H; by destruct Hunder].
  - destruct Htext as [[_ ->] | [_ ->]]; simpl; [reflexivity | discriminate].
  - unfold zipFile.
    destruct (textContent env) as [content|]; simpl.
    2: { split; [discriminate | intros (? & ? & ? & _); discriminate]. }
    destruct (statSize env) as [size|]; simpl.
    2: { split; [discriminate | intros (? & ? & _ & ? & _); discriminate]. }
    destruct (reachSizeLimit P (_totalSize this + size) scope) eqn:Hlimit.
    + split; [intros _ | reflexivity].
      exists content, size. split; [reflexivity|]. split; [reflexivity|].
      by apply (reachSizeLimit_file P _ scope Hscope).
    + split.
      * destruct (getZipDirPath P _ CODE_SCAN) as [zipDir this']; simpl.
        destruct (finalized env); discriminate.
      * intros (content' & size' & [= <-] & [= <-] & Hover).
        apply (reachSizeLimit_file P _ scope Hscope) in Hover. congruence.
Qed.
Example rewriteDiff_sample :
  rewriteDiff sampleDiff
  = joinLF [ "diff --git a/app/x.ts b/app/x.ts";
             "new file mode 100644";
             "index 0000000..e69de29";
             "--- /dev/null";
             "+++ b/app/x.ts";
             "@@ -0,0 +1 @@";
             "+const s = " +:+ dquote +:+ "a" +:+ bslash +:+ bslash +:+ "b" +:+ dquote ].
Proof. reflexivity. Qed.

(** When [zipFile] throws for the size, the file is already counted. *)
Lemma zipFile_counts_before_throw P this fileUri scope env content size :
  textContent env = Some content ->
  statSize env = Some size ->
  reachSizeLimit P (_totalSize this + size) scope = true ->
  zipFile P this (Some fileUri) scope env
  = (Throw FileSizeExceededError,
     set_totalLines (_totalLines this + Z.of_nat (length (splitNewlineRegex content)))
       (set_totalSize (_totalSize this + size)
          (set_pickedSourceFiles ({[ fsPath fileUri ]} ∪ _pickedSourceFiles this) this))).
Proof.
  intros Hcontent Hsize Hlimit. unfold zipFile. rewrite Hcontent, Hsize. simpl.
  rewrite Hlimit. reflexivity.
Qed.

(** The theorem on an object one byte below the project limit and a file
    of two bytes. *)
Lemma payload_limits_raise_errors_witness :
  fst (processTextFile samplePlatform nearlyFull [] sampleUri "ab" ∅ "app/src/index.ts")
    = Throw ProjectSizeExceededError
  /\ snd (processTextFile samplePlatform nearlyFull [] sampleUri "ab" ∅ "app/src/index.ts")
     = (nearlyFull, [], ∅)
  /\ fst (zipFile samplePlatform nearlyFull (Some sampleUri) FILE_AUTO sampleFile)
     = Throw FileSizeExceededError.
Proof.
  destruct (payload_limits_raise_errors samplePlatform nearlyFull [] sampleUri "ab" ∅
              "app/src/index.ts" sampleUri FILE_AUTO sampleFile (or_introl eq_refl))
    as (Htext & Hframe & Hfile).
  assert (fst (processTextFile samplePlatform nearlyFull [] sampleUri "ab" ∅
                 "app/src/index.ts") = Throw ProjectSizeExceededError) as Hthrown.
  { apply Htext. right. reflexivity. }
  split; [exact Hthrown|]. split; [exact (Hframe Hthrown)|].
  apply Hfile. exists "ab", 2%Z. split; [reflexivity|]. split; reflexivity.
Defined.

End ZipTheorems.

(** ** The EC2 connection helper *)

Module Ec2Theorems.
Import Ec2.

Lemma includes_slash pattern : includes "/" pattern = true <-> hasSlash pattern.
Proof.
  unfold hasSlash. induction pattern as [|c r IH].
  - split; [discriminate|]. intros ([|? ?] & after & H); discriminate.
  - change (includes "/" (String c r))
      with (bool_decide ("/"%char = c) && startsWith "" r || includes "/" r).
    case_bool_decide as Hc.
    + subst c. assert (startsWith "" r = true) as -> by (destruct r; reflexivity).
      split; [intros _ | reflexivity]. by exists "", r.
    + rewrite andb_false_l, orb_false_l, IH. split.
      * intros (before & after & ->). exists (String c before), after. reflexivity.
      * intros ([|c' before] & after & H); simpl in H; injection H as -> ->.
        -- congruence.
        -- by exists before, after.
Qed.

(** C8: [getRemoveLinesCommand] throws, and then a [ToolkitError],
    exactly when the pattern has a slash; otherwise it returns the sed
    command, with no extension argument on Amazon Linux and Ubuntu and
    with an empty one on macOS. *)
Theorem getRemoveLinesCommand_spec pattern hostOS filepath :
  ((exists e, getRemoveLinesCommand pattern hostOS filepath = Throw e)
   <-> hasSlash pattern)
  /\ (forall e, getRemoveLinesCommand pattern hostOS filepath = Throw e ->
        exists msg, e = ToolkitError msg)
  /\ (~ hasSlash pattern ->
      getRemoveLinesCommand pattern hostOS filepath
      = Ok match hostOS with
           | AmazonLinux | Ubuntu => "sed -i /" +:+ pattern +:+ "/d " +:+ filepath
           | macOS => "sed -i '' /" +:+ pattern +:+ "/d " +:+ filepath
           end).
Proof.
  unfold getRemoveLinesCommand.
  pose proof (includes_slash pattern) as Hinc.
  destruct (includes "/" pattern).
  - split; [|split].
    + split; [intros _; by apply Hinc | intros _; eauto].
    + intros e [= <-]. eauto.
    + intros Hno. destruct Hno. by apply Hinc.
  - assert (~ hasSlash pattern) as Hno.
    { intros H. apply Hinc in H. discriminate. }
    split; [|split].
    + split; [intros [e H]; discriminate | intros H; by destruct Hno].
    + intros e H. discriminate.
    + intros _. destruct hostOS; reflexivity.
Qed.

Example getRemoveLinesCommand_linux :
  getRemoveLinesCommand "aws-toolkit" Ubuntu "~/.ssh/authorized_keys"
  = Ok "sed -i /aws-toolkit/d ~/.ssh/authorized_keys".
Proof. reflexivity. Qed.

Example getRemoveLinesCommand_macOS :
  getRemoveLinesCommand "aws-toolkit" macOS "~/.ssh/authorized_keys"
  = Ok "sed -i '' /aws-toolkit/d ~/.ssh/authorized_keys".
Proof. reflexivity. Qed.

Example getRemoveLinesCommand_slash :
  getRemoveLinesCommand "aws/toolkit" AmazonLinux "~/.ssh/authorized_keys"
  = Throw (ToolkitError "ec2: cannot match pattern containing '/', given: aws/toolkit").
Proof. reflexivity. Qed.

End Ec2Theorems.

(** * Properties of the further code *)

(** ** The chat session *)

Module ChatMore.
Import Chat ChatCalls Samples MoreSamples.

(** *** What [fixHistory] can do to the session and to the next message *)

Lemma set_chatHistory_overflows stack this h :
  set_chatHistory stack this h = (Throw stackOverflow, this).
Proof. induction stack as [|stack IH]; [reflexivity | exact IH]. Qed.

(** The two ways [fixHistory] goes, by the length of the history. *)
Lemma fixHistory_cases stack this nextMessage :
  (length (chatHistory this) <= MAX_CONVERSATION_STATE_HISTORY_LEN
   /\ fixHistory stack this nextMessage
      = (Ok tt, (dropTrailingUser this,
                 addCancelledToolResults (dropTrailingUser this) nextMessage)))
  \/ (MAX_CONVERSATION_STATE_HISTORY_LEN < length (chatHistory this)
      /\ fixHistory stack this nextMessage = (Throw stackOverflow, (this, nextMessage))).
Proof.
  unfold fixHistory, trimHistory.
  destruct (Nat.ltb_spec MAX_CONVERSATION_STATE_HISTORY_LEN (length (chatHistory this)))
    as [Hover | Hwithin].
  - right. split; [exact Hover|].
    rewrite !set_chatHistory_overflows. destruct (negb _); reflexivity.
  - left. split; [exact Hwithin | reflexivity].
Qed.

Lemma last_snoc_inv {A} (l : list A) x :
  last l = Some x -> l = removelast l ++ [x].
Proof.
  intros H. destruct (decide (l = [])) as [-> | Hne]; [discriminate|].
  rewrite (app_removelast_last x Hne) at 1. f_equal. f_equal.
  clear Hne. induction l as [|a [|b l] IH]; [discriminate | by injection H |].
  apply IH. exact H.
Qed.

Lemma dropTrailingUser_history this :
  sessionId (dropTrailingUser this) = sessionId this
  /\ _toolUse (dropTrailingUser this) = _toolUse this
  /\ (chatHistory (dropTrailingUser this) = chatHistory this
      \/ exists u, chatHistory this
                   = chatHistory (dropTrailingUser this) ++ [userInputMessage u]).
Proof.
  unfold dropTrailingUser.
  destruct (last (chatHistory this)) as [[u | a | tag]|] eqn:Hlast; auto.
  split; [reflexivity|]. split; [reflexivity|]. right. exists u.
  apply last_snoc_inv in Hlast. exact Hlast.
Qed.

(** X1: [fixHistory] returns exactly on the histories of at most 100
    messages; on a longer one it ends with the [RangeError] of the stack
    overflow, at every stack depth, and leaves the session and the next
    message as they were. *)
Theorem fixHistory_returns_iff_within_cap stack this nextMessage :
  (fst (fixHistory stack this nextMessage) = Ok tt
   <-> length (chatHistory this) <= 100)
  /\ (fst (fixHistory stack this nextMessage) = Throw stackOverflow
      <-> 100 < length (chatHistory this))
  /\ (100 < length (chatHistory this) ->
      snd (fixHistory stack this nextMessage) = (this, nextMessage)).
Proof.
  change 100 with MAX_CONVERSATION_STATE_HISTORY_LEN.
  destruct (fixHistory_cases stack this nextMessage) as [[Hlen ->] | [Hlen ->]]; simpl.
  - split; [|split].
    + split; [intros _; exact Hlen | reflexivity].
    + split; [discriminate | lia].
    + lia.
  - split; [|split].
    + split; [discriminate | lia].
    + split; [intros _; exact Hlen | reflexivity].
    + reflexivity.
Qed.

(** X2: whatever its outcome, [fixHistory] leaves the session id and the
    tool use alone, and the history it leaves is the one it found or the
    one it found without its last message, which then was a user message:
    it never reorders, rewrites or adds a message. *)
Theorem fixHistory_drops_at_most_last_message stack this nextMessage :
  sessionId (fst (snd (fixHistory stack this nextMessage))) = sessionId this
  /\ _toolUse (fst (snd (fixHistory stack this nextMessage))) = _toolUse this
  /\ (chatHistory (fst (snd (fixHistory stack this nextMessage))) = chatHistory this
      \/ exists u,
           chatHistory this
           = chatHistory (fst (snd (fixHistory stack this nextMessage)))
             ++ [userInputMessage u]).
Proof.
  destruct (fixHistory_cases stack this nextMessage) as [[_ ->] | [_ ->]]; simpl.
  - apply dropTrailingUser_history.
  - auto.
Qed.

Lemma addCancelledToolResults_cases this nextMessage :
  addCancelledToolResults this nextMessage = nextMessage
  \/ exists n c a uses,
       nextMessage = Some n
       /\ userInputMessageContext n = Some c
       /\ (toolResults c = None \/ toolResults c = Some [])
       /\ last (chatHistory this) = Some (assistantResponseMessage a)
       /\ toolUses a = Some uses
       /\ uses <> []
       /\ addCancelledToolResults this nextMessage
          = Some {| content := content n;
                    userInputMessageContext :=
                      Some {| toolResults := Some (map cancelledToolResult uses);
                              tools := tools c;
                              ctx_rest := ctx_rest c |};
                    uim_rest := uim_rest n |}.
Proof.
  unfold addCancelledToolResults.
  destruct (last (chatHistory this)) as [[u | a | tag]|] eqn:Hlast; auto.
  destruct (toolUses a) as [[|t ts]|] eqn:Huses; auto.
  destruct nextMessage as [n|]; auto.
  destruct (userInputMessageContext n) as [c|] eqn:Hctx; auto.
  destruct (noToolResults (Some c)) eqn:Hno; auto.
  right. exists n, c, a, (t :: ts).
  split; [reflexivity|]. split; [exact Hctx|]. split.
  { unfold noToolResults in Hno.
    destruct (toolResults c) as [[|r rs]|]; [right | discriminate | left]; reflexivity. }
  split; [first [reflexivity | exact Hlast]|].
  split; [first [reflexivity | exact Huses]|].
  split; [discriminate | reflexivity].
Qed.

(** X3: [fixHistory] writes to the next message only to add cancelled
    tool results, and only when the history it leaves ends in an assistant
    message with tool uses and the next message has a context without tool
    results.  In particular it leaves alone a next message without context
    (the tool uses then stay unanswered) and one that carries tool
    results. *)
Theorem fixHistory_writes_next_message_only_to_cancel stack this nextMessage :
  (snd (snd (fixHistory stack this nextMessage)) = nextMessage
   \/ exists n c a uses,
        nextMessage = Some n
        /\ userInputMessageContext n = Some c
        /\ (toolResults c = None \/ toolResults c = Some [])
        /\ last (chatHistory (fst (snd (fixHistory stack this nextMessage))))
           = Some (assistantResponseMessage a)
        /\ toolUses a = Some uses
        /\ uses <> []
        /\ snd (snd (fixHistory stack this nextMessage))
           = Some {| content := content n;
                     userInputMessageContext :=
                       Some {| toolResults := Some (map cancelledToolResult uses);
                               tools := tools c;
                               ctx_rest := ctx_rest c |};
                     uim_rest := uim_rest n |})
  /\ (forall n, nextMessage = Some n -> userInputMessageContext n = None ->
        snd (snd (fixHistory stack this nextMessage)) = Some n)
  /\ (forall n c r rs, nextMessage = Some n -> userInputMessageContext n = Some c ->
        toolResults c = Some (r :: rs) ->
        snd (snd (fixHistory stack this nextMessage)) = Some n)
  /\ (nextMessage = None -> snd (snd (fixHistory stack this nextMessage)) = None).
Proof.
  destruct (fixHistory_cases stack this nextMessage) as [[_ ->] | [_ ->]]; simpl.
  2: { split; [left; reflexivity|]. split; [|split]; intros; subst; reflexivity. }
  pose proof (addCancelledToolResults_cases (dropTrailingUser this) nextMessage) as Hcases.
  split; [exact Hcases|].
  split; [|split].
  - intros n -> Hctx.
    destruct Hcases as [-> | (n' & c & _ & _ & [= <-] & Hc & _)]; [reflexivity | congruence].
  - intros n c r rs -> Hctx Hres.
    destruct Hcases as [-> | (n' & c' & _ & _ & [= <-] & Hc & [Hr | Hr] & _)];
      [reflexivity | congruence | congruence].
  - intros ->.
    destruct Hcases as [-> | (n' & _ & _ & _ & Hn & _)]; [reflexivity | discriminate].
Qed.

(** *** Tool specifications are never persisted *)

Lemma formatChatHistoryMessage_withoutTools message :
  withoutTools (formatChatHistoryMessage message).
Proof.
  destruct message as [u | a | tag]; simpl; [|exact I..].
  eexists. split; [reflexivity|].
  destruct (userInputMessageContext u); reflexivity.
Qed.

Lemma dropTrailingUser_Forall (P : ChatMessage -> Prop) this :
  Forall P (chatHistory this) -> Forall P (chatHistory (dropTrailingUser this)).
Proof.
  intros Hall.
  destruct (dropTrailingUser_history this) as (_ & _ & [-> | [u Hu]]); [exact Hall|].
  rewrite Hu in Hall. apply Forall_app in Hall. tauto.
Qed.

(** The session [chatSso] leaves has the history that [fixHistory] left,
    or, when the client could not be created, the one it found. *)
Lemma chatSso_history stack env this chatRequest :
  chatHistory (after_session (snd (chatSso stack env this chatRequest))) = chatHistory this
  \/ chatHistory (after_session (snd (chatSso stack env this chatRequest)))
     = chatHistory (dropTrailingUser this).
Proof.
  unfold chatSso.
  destruct (createCodeWhispererChatStreamingClient env); [|left; reflexivity].
  destruct (fixHistory_cases stack this
              (currentUserInputMessage (assignConversationId this chatRequest)))
    as [[_ ->] | [_ ->]]; [|left; reflexivity].
  destruct (generateAssistantResponse env _) as [response|]; [|right; reflexivity].
  destruct (generateAssistantResponseResponse response); right; reflexivity.
Qed.

(** X4: in a session that the public methods have built from a new one,
    every user message of the history has a context whose [tools] is
    undefined, whatever was pushed: tool specifications are never kept in
    the history. *)
Theorem built_history_without_tools this :
  built this -> Forall withoutTools (chatHistory this).
Proof.
  induction 1 as [| this id _ IH | this toolUse _ IH | this message _ IH
                 | stack env this chatRequest _ IH].
  - constructor.
  - exact IH.
  - exact IH.
  - destruct message as [m|]; [|exact IH].
    apply Forall_app. split; [exact IH|].
    constructor; [apply formatChatHistoryMessage_withoutTools | constructor].
  - destruct (chatSso_history stack env this chatRequest) as [-> | ->];
      [exact IH | by apply dropTrailingUser_Forall].
Qed.

(** The theorem on a session to which a user message with a tool
    specification and an assistant message have been pushed. *)
Lemma built_history_without_tools_witness :
  Forall withoutTools
    (chatHistory
       (pushToChatHistory
          (pushToChatHistory newChatSession (Some (userInputMessage stopMessage)))
          (Some (assistantSays "done")))).
Proof.
  apply (built_history_without_tools
           (pushToChatHistory
              (pushToChatHistory newChatSession (Some (userInputMessage stopMessage)))
              (Some (assistantSays "done")))).
  apply built_push, built_push, built_new.
Defined.

(** *** chatSso *)

(** X5: [chatSso] gives the client at most one request; a call that
    throws leaves the session id as it was; and on a history of more than
    100 messages it gives the client nothing: once the client is created
    the call ends with the [RangeError] of [fixHistory], so that such a
    session can send no further message. *)
Theorem chatSso_sends_at_most_once stack env this chatRequest :
  length (sent (snd (chatSso stack env this chatRequest))) <= 1
  /\ (forall e, fst (chatSso stack env this chatRequest) = Throw e ->
        sessionId (after_session (snd (chatSso stack env this chatRequest)))
        = sessionId this)
  /\ (100 < length (chatHistory this) ->
      sent (snd (chatSso stack env this chatRequest)) = []
      /\ (createCodeWhispererChatStreamingClient env = Ok tt ->
          fst (chatSso stack env this chatRequest) = Throw stackOverflow))
  /\ (forall response, fst (chatSso stack env this chatRequest) = Ok response ->
        sessionId (after_session (snd (chatSso stack env this chatRequest)))
        = out_conversationId response
        /\ length (chatHistory this) <= 100).
Proof.
  change 100 with MAX_CONVERSATION_STATE_HISTORY_LEN.
  unfold chatSso.
  destruct (createCodeWhispererChatStreamingClient env) as [[]|e0]; simpl.
  2: { split; [lia|]. split; [reflexivity|]. split; [|discriminate].
       intros _. split; [reflexivity | discriminate]. }
  destruct (fixHistory_cases stack this
              (currentUserInputMessage (assignConversationId this chatRequest)))
    as [[Hlen ->] | [Hlen ->]]; simpl.
  2: { split; [lia|]. split; [reflexivity|]. split; [|discriminate].
       intros _. split; reflexivity. }
  pose proof (dropTrailingUser_history this) as (Hid & _ & _).
  destruct (generateAssistantResponse env _) as [response|e1]; simpl.
  2: { split; [lia|]. split; [intros; exact Hid|]. split; [lia | discriminate]. }
  destruct (generateAssistantResponseResponse response); simpl.
  - split; [lia|]. split; [discriminate|]. split; [lia|].
    intros r [= <-]. split; [reflexivity | exact Hlen].
  - split; [lia|]. split; [intros; exact Hid|]. split; [lia | discriminate].
Qed.

Lemma chatSso_Ok_sessionId stack env this chatRequest response :
  fst (chatSso stack env this chatRequest) = Ok response ->
  sessionId (after_session (snd (chatSso stack env this chatRequest)))
  = out_conversationId response.
Proof.
  unfold chatSso.
  destruct (createCodeWhispererChatStreamingClient env); [|discriminate].
  destruct (fixHistory stack this _) as [[[]|e] [this' next']]; [|discriminate].
  destruct (generateAssistantResponse env _) as [response'|e]; [|discriminate].
  destruct (generateAssistantResponseResponse response'); [|discriminate].
  intros [= <-]. reflexivity.
Qed.

Lemma assignConversationId_defined this chatRequest cs id :
  sessionId this = Some id -> id <> "" ->
  conversationState chatRequest = Some cs ->
  exists cs', conversationState (assignConversationId this chatRequest) = Some cs'
              /\ cs_conversationId cs' = Some id.
Proof.
  intros Hid Hne Hcs. unfold assignConversationId. rewrite Hid, Hcs.
  rewrite bool_decide_false by exact Hne. eexists. split; reflexivity.
Qed.

Lemma withCurrentUserInputMessage_conversationId chatRequest nextMessage cs :
  conversationState chatRequest = Some cs ->
  exists cs', conversationState (withCurrentUserInputMessage chatRequest nextMessage)
              = Some cs'
              /\ cs_conversationId cs' = cs_conversationId cs.
Proof.
  intros Hcs. unfold withCurrentUserInputMessage. rewrite Hcs.
  destruct nextMessage as [u|]; [|eauto].
  destruct (currentMessage cs) as [[u' | a | tag]|]; eauto.
Qed.

(** X6: the conversation id that a successful call of [chatSso] gets
    from the service is the one that the next call puts in the request it
    sends, whatever id the caller had put there: when that id is defined and
    not empty, every request the next call gives the client carries it. *)
Theorem chatSso_carries_conversation_id
    stack env this chatRequest response id stack' env' chatRequest' cs' :
  fst (chatSso stack env this chatRequest) = Ok response ->
  out_conversationId response = Some id ->
  id <> "" ->
  conversationState chatRequest' = Some cs' ->
  Forall (fun r => exists cs, conversationState r = Some cs
                              /\ cs_conversationId cs = Some id)
    (sent (snd (chatSso stack' env'
                  (after_session (snd (chatSso stack env this chatRequest)))
                  chatRequest'))).
Proof.
  intros Hok Hid Hne Hcs'.
  pose proof (chatSso_Ok_sessionId stack env this chatRequest response Hok) as Hsid.
  rewrite Hid in Hsid.
  set (this' := after_session (snd (chatSso stack env this chatRequest))) in *.
  unfold chatSso.
  destruct (createCodeWhispererChatStreamingClient env'); simpl; [|constructor].
  destruct (assignConversationId_defined this' chatRequest' cs' id Hsid Hne Hcs')
    as (cs1 & Hcs1 & Hid1).
  destruct (fixHistory stack' this' _) as [[[]|e] [this'' next'']]; simpl; [|constructor].
  destruct (withCurrentUserInputMessage_conversationId _ next'' cs1 Hcs1)
    as (cs2 & Hcs2 & Hid2).
  assert (exists cs, conversationState
            (withCurrentUserInputMessage (assignConversationId this' chatRequest') next'')
            = Some cs /\ cs_conversationId cs = Some id) as Hsent.
  { exists cs2. split; [exact Hcs2 | congruence]. }
  destruct (generateAssistantResponse env' _) as [response'|e]; simpl.
  - destruct (generateAssistantResponseResponse response'); simpl;
      (constructor; [exact Hsent | constructor]).
  - constructor; [exact Hsent | constructor].
Qed.

(** The theorem on two calls: the service answers the first with the id
    conversation-2, the second request is made with a stale id. *)
Lemma chatSso_carries_conversation_id_witness :
  Forall (fun r => exists cs, conversationState r = Some cs
                              /\ cs_conversationId cs = Some "conversation-2")
    (sent (snd (chatSso 8 answeringService
                  (after_session
                     (snd (chatSso 8 answeringService newChatSession
                             (requestFor None "first question"))))
                  (requestFor (Some "stale") "second question")))).
Proof.
  apply (chatSso_carries_conversation_id 8 answeringService newChatSession
           (requestFor None "first question")
           {| generateAssistantResponseResponse := Some 1;
              out_conversationId := Some "conversation-2";
              out_requestId := Some "request-1" |}
           "conversation-2" 8 answeringService
           (requestFor (Some "stale") "second question")
           {| cs_conversationId := Some "stale";
              currentMessage := Some (userSays "second question");
              cs_rest := [("chatTriggerType", "MANUAL")] |}).
  - reflexivity.
  - reflexivity.
  - discriminate.
  - reflexivity.
Defined.

End ChatMore.

(** ** The streaming handler *)

Module StreamingMoreTheorems.
Import Streaming StreamingMore Samples MoreSamples.

Lemma append_assoc (a b c : string) : (a +:+ b) +:+ c = a +:+ (b +:+ c).
Proof.
  induction a as [|x a IH]; [reflexivity|].
  change (String x ((a +:+ b) +:+ c) = String x (a +:+ (b +:+ c))). by f_equal.
Qed.

Lemma append_empty_r (a : string) : a +:+ "" = a.
Proof.
  induction a as [|x a IH]; [reflexivity|].
  change (String x (a +:+ "") = String x a). by f_equal.
Qed.

(** *** The text of the answer *)

(** [messenger], by the outcome of the call. *)
Lemma messenger_run o ev w :
  messenger o ev w
  = (match o_messenger o ev with Ok _ => Returned tt | Throw e => Thrown e end,
     {| handler := handler w; trace := trace w ++ [ev] |}).
Proof.
  unfold messenger, bind, call, lift. destruct (o_messenger o ev) as [[]|e]; reflexivity.
Qed.

(** A chunk adds its text and at most one update, whatever the messenger
    does. *)
Lemma handleChunk_run o tabId fullResponse content w :
  exists new,
    handleChunk o tabId fullResponse content w
    = (Returned (fullResponse +:+ chunkText [Chunk content]),
       {| handler := handler w; trace := trace w ++ new |})
    /\ Forall (fun ev => exists text, ev = SendShortSummary text "answer-stream" tabId
                                            (messageId (handler w)) false) new.
Proof.
  destruct content as [[|c s]|]; simpl.
  - exists []. rewrite !app_nil_r, append_empty_r. split; [by destruct w | constructor].
  - exists [SendShortSummary (fullResponse +:+ String c s) "answer-stream" tabId
              (messageId (handler w)) false].
    rewrite append_empty_r.
    unfold try_catch, try_catch_finally, bind, this, ret. rewrite messenger_run.
    split; [|repeat constructor; eauto].
    destruct (o_messenger o _) as [[]|e]; reflexivity.
  - exists []. rewrite !app_nil_r, append_empty_r. split; [by destruct w | constructor].
Qed.

Lemma cancelStreaming_run w :
  exists new,
    cancelStreaming w = (Returned tt, {| handler := handler w; trace := trace w ++ new |})
    /\ Forall (fun ev => exists c, abortController (handler w) = Some c /\ ev = Abort c) new.
Proof.
  unfold cancelStreaming, bind, this, call, ret.
  destruct (isStreaming (handler w)), (abortController (handler w)) as [c|];
    first [ exists [Abort c]; split; [reflexivity | repeat constructor; eauto]
          | exists []; rewrite app_nil_r; split; [by destruct w | constructor] ].
Qed.

(** The listeners of a stream never throw and never suspend; they leave
    the handler alone and return the text so far followed by the text of
    the chunks. *)
Lemma streamEvents_run o tabId evs :
  forall fullResponse w,
    exists new,
      streamEvents o tabId fullResponse evs w
      = (Returned (fullResponse +:+ chunkText evs),
         {| handler := handler w; trace := trace w ++ new |})
      /\ Forall (fun ev =>
                   (exists text, ev = SendShortSummary text "answer-stream" tabId
                                        (messageId (handler w)) false)
                   \/ (exists c, abortController (handler w) = Some c /\ ev = Abort c))
           new.
Proof.
  induction evs as [|[content|] evs IH]; intros fullResponse w.
  - exists []. simpl. rewrite app_nil_r, append_empty_r.
    split; [by destruct w | constructor].
  - destruct (handleChunk_run o tabId fullResponse content w) as (new1 & Hrun & Hnew1).
    set (w1 := {| handler := handler w; trace := trace w ++ new1 |}) in *.
    destruct (IH (fullResponse +:+ chunkText [Chunk content]) w1) as (new2 & Hrest & Hnew2).
    exists (new1 ++ new2).
    change (streamEvents o tabId fullResponse (Chunk content :: evs))
      with (bind (handleChunk o tabId fullResponse content)
                 (fun fullResponse' => streamEvents o tabId fullResponse' evs)).
    unfold bind. rewrite Hrun, Hrest. simpl. split.
    + rewrite app_assoc. f_equal.
      destruct content as [text|]; cbn [chunkText].
      * by rewrite append_empty_r, append_assoc.
      * by rewrite append_empty_r.
    + apply Forall_app. split; [|exact Hnew2].
      eapply Forall_impl; [exact Hnew1 | auto].
  - destruct (cancelStreaming_run w) as (new1 & Hrun & Hnew1).
    set (w1 := {| handler := handler w; trace := trace w ++ new1 |}) in *.
    destruct (IH fullResponse w1) as (new2 & Hrest & Hnew2).
    exists (new1 ++ new2).
    change (streamEvents o tabId fullResponse (UserCancels :: evs))
      with (bind cancelStreaming (fun _ => streamEvents o tabId fullResponse evs)).
    unfold bind. rewrite Hrun, Hrest. simpl. split.
    + by rewrite app_assoc.
    + apply Forall_app. split; [|exact Hnew2].
      eapply Forall_impl; [exact Hnew1 | auto].
Qed.

(** X7: when the request is accepted and the stream ends well,
    [streamResponse] returns after sending, as its last two calls, the
    final answer and the re-enabling of the chat input, and the text of that
    answer is the concatenation of the text of all the chunks, in order:
    a partial update that the messenger rejects loses no text. *)
Theorem streamResponse_sends_whole_text o content tabId w client :
  streamingClient (handler w) = Some client ->
  o_generate o = Ok tt ->
  o_settlement o = Resolves ->
  o_messenger o (SendShortSummary (chunkText (o_streamEvents o)) "answer" tabId
                   (messageId (handler w)) true) = Ok tt ->
  o_messenger o (SendChatInputEnabled tabId true) = Ok tt ->
  exists updates,
    streamResponse o content tabId w
    = (Returned tt,
       {| handler := handler w;
          trace := trace w
                   ++ GenerateAssistantResponse (conversationId (handler w)) content
                        (abortController (handler w))
                      :: updates
                   ++ [ SendShortSummary (chunkText (o_streamEvents o)) "answer" tabId
                          (messageId (handler w)) true;
                        SendChatInputEnabled tabId true ] |}).
Proof.
  intros Hclient Hgen Hsettle Hanswer Henable.
  unfold streamResponse, bind, this, call. cbn [handler trace fst snd].
  rewrite Hclient, Hgen. unfold lift.
  match goal with |- context [streamEvents o tabId "" (o_streamEvents o) ?w1] =>
    destruct (streamEvents_run o tabId (o_streamEvents o) "" w1) as (updates & -> & _)
  end.
  exists updates. cbn [handler trace fst snd]. rewrite Hsettle.
  change ("" +:+ chunkText (o_streamEvents o)) with (chunkText (o_streamEvents o)).
  unfold handleComplete, asListener, bind, this. cbn [handler trace fst snd].
  rewrite messenger_run, Hanswer. rewrite messenger_run, Henable.
  cbn [handler trace fst snd]. f_equal. f_equal.
  rewrite <- !app_assoc. reflexivity.
Qed.

(** *** Which controller is aborted *)

Create HintDb appends discriminated.

Lemma appendsWith_nothing {A} c P (m : M A) :
  (forall w, snd (m w) = w) -> appendsWith c P m.
Proof.
  intros Hm w Hc. rewrite Hm. split; [exact Hc|].
  exists []. rewrite app_nil_r. split; [reflexivity | constructor].
Qed.

Lemma appendsWith_ret {A} c P (a : A) : appendsWith c P (ret a).
Proof. by apply appendsWith_nothing. Qed.

Lemma appendsWith_throw {A} c P e : appendsWith c P (@throw A e).
Proof. by apply appendsWith_nothing. Qed.

Lemma appendsWith_suspend {A} c P : appendsWith c P (@suspend A).
Proof. by apply appendsWith_nothing. Qed.

Lemma appendsWith_this c P : appendsWith c P this.
Proof. by apply appendsWith_nothing. Qed.

Lemma appendsWith_lift {A} c P (r : Result A) : appendsWith c P (lift r).
Proof. apply appendsWith_nothing. intros w. unfold lift. by destruct r. Qed.

Lemma appendsWith_call c (P : Event -> Prop) ev : P ev -> appendsWith c P (call ev).
Proof.
  intros Hev w Hc. split; [exact Hc|].
  exists [ev]. split; [reflexivity | by repeat constructor].
Qed.

Lemma appendsWith_bind {A B} c P (m : M A) (k : A -> M B) :
  appendsWith c P m -> (forall a, appendsWith c P (k a)) -> appendsWith c P (bind m k).
Proof.
  intros Hm Hk w Hc. unfold bind. destruct (Hm w Hc) as (Hc1 & new1 & Ht1 & Hn1).
  destruct (m w) as [[a | e |] w1]; simpl in *; [|by eauto..].
  destruct (Hk a w1 Hc1) as (Hc2 & new2 & Ht2 & Hn2).
  split; [exact Hc2|]. exists (new1 ++ new2).
  rewrite Ht2, Ht1, app_assoc. split; [reflexivity | by apply Forall_app].
Qed.

Lemma appendsWith_try_catch_finally {A} c P (body : M A) handle fin :
  appendsWith c P body -> (forall e, appendsWith c P (handle e)) -> appendsWith c P fin ->
  appendsWith c P (try_catch_finally body handle fin).
Proof.
  intros Hb Hh Hf w Hc. unfold try_catch_finally.
  destruct (Hb w Hc) as (Hc1 & new1 & Ht1 & Hn1).
  destruct (body w) as [[a | e |] w1]; simpl in *.
  - destruct (Hf w1 Hc1) as (Hc2 & new2 & Ht2 & Hn2).
    assert (exists new, trace (snd (fin w1)) = trace w ++ new /\ Forall P new) as Hall.
    { exists (new1 ++ new2). rewrite Ht2, Ht1, app_assoc. by split; [|apply Forall_app]. }
    destruct (fin w1) as [[u | e' |] w2]; simpl in *; by split.
  - destruct (Hh e w1 Hc1) as (Hc2 & new2 & Ht2 & Hn2).
    assert (exists new, trace (snd (handle e w1)) = trace w ++ new /\ Forall P new) as Hall2.
    { exists (new1 ++ new2). rewrite Ht2, Ht1, app_assoc. by split; [|apply Forall_app]. }
    destruct (handle e w1) as [[a | e' |] w2]; simpl in *; [| |by split].
    + destruct (Hf w2 Hc2) as (Hc3 & new3 & Ht3 & Hn3).
      destruct Hall2 as (new12 & Ht12 & Hn12).
      assert (exists new, trace (snd (fin w2)) = trace w ++ new /\ Forall P new) as Hall.
      { exists (new12 ++ new3). rewrite Ht3, Ht12, app_assoc. by split; [|apply Forall_app]. }
      destruct (fin w2) as [[u | e'' |] w3]; simpl in *; by split.
    + destruct (Hf w2 Hc2) as (Hc3 & new3 & Ht3 & Hn3).
      destruct Hall2 as (new12 & Ht12 & Hn12).
      assert (exists new, trace (snd (fin w2)) = trace w ++ new /\ Forall P new) as Hall.
      { exists (new12 ++ new3). rewrite Ht3, Ht12, app_assoc. by split; [|apply Forall_app]. }
      destruct (fin w2) as [[u | e'' |] w3]; simpl in *; by split.
  - split; [exact Hc1 | eauto].
Qed.

Lemma appendsWith_asListener c P m : appendsWith c P m -> appendsWith c P (asListener m).
Proof.
  intros Hm w Hc. unfold asListener. specialize (Hm w Hc).
  destruct (m w) as [[a | e |] w1]; exact Hm.
Qed.

Lemma abortsOnly_other c ev : (forall c', ev <> Abort c') -> abortsOnly c ev.
Proof. intros Hev c' ->. by destruct (Hev c'). Qed.

#[local] Hint Resolve appendsWith_ret appendsWith_throw appendsWith_suspend
  appendsWith_this appendsWith_lift appendsWith_asListener : appends.
#[local] Hint Extern 2 (appendsWith _ _ (bind _ _)) =>
  apply appendsWith_bind; [| intros ?] : appends.
#[local] Hint Extern 2 (appendsWith _ _ (try_catch _ _)) =>
  apply appendsWith_try_catch_finally; [| intros ? |] : appends.
#[local] Hint Extern 2 (appendsWith _ _ (call _)) =>
  apply appendsWith_call : appends.
#[local] Hint Extern 1 (abortsOnly _ _) =>
  apply abortsOnly_other; intros ?; discriminate : appends.

Lemma appendsWith_messenger c o ev :
  (forall c', ev <> Abort c') -> appendsWith c (abortsOnly c) (messenger o ev).
Proof.
  intros Hev. unfold messenger. apply appendsWith_bind; [|intros ?; auto with appends].
  apply appendsWith_call. by apply abortsOnly_other.
Qed.

#[local] Hint Extern 2 (appendsWith _ _ (messenger _ _)) =>
  apply appendsWith_messenger; intros ?; discriminate : appends.

Lemma appendsWith_cancelStreaming c : appendsWith c (abortsOnly c) cancelStreaming.
Proof.
  intros w Hc. destruct (cancelStreaming_run w) as (new & -> & Hnew). simpl.
  split; [exact Hc|]. exists new. split; [reflexivity|].
  eapply Forall_impl; [exact Hnew|]. intros ev (c' & Hc' & ->) c'' [= <-]. congruence.
Qed.

#[local] Hint Resolve appendsWith_cancelStreaming : appends.

Lemma appendsWith_handleChunk c o tabId fullResponse content :
  appendsWith c (abortsOnly c) (handleChunk o tabId fullResponse content).
Proof. unfold handleChunk. destruct content as [[|x s]|]; auto 10 with appends. Qed.

#[local] Hint Resolve appendsWith_handleChunk : appends.

Lemma appendsWith_streamEvents c o tabId evs :
  forall fullResponse,
    appendsWith c (abortsOnly c) (streamEvents o tabId fullResponse evs).
Proof.
  induction evs as [|[content|] evs IH]; intros fullResponse; simpl; auto with appends.
Qed.

#[local] Hint Resolve appendsWith_streamEvents : appends.

Lemma appendsWith_streamResponse c o content tabId :
  appendsWith c (abortsOnly c) (streamResponse o content tabId).
Proof.
  unfold streamResponse. apply appendsWith_bind; [auto with appends|]. intros h.
  destruct (streamingClient h); [|auto with appends].
  unfold handleComplete. destruct (o_settlement o); auto 12 with appends.
Qed.

#[local] Hint Resolve appendsWith_streamResponse : appends.

(** The try block sets the controller and then only runs steps that keep
    it. *)
Lemma tryBlock_appends userPrompt tabId o w :
  exists new,
    trace (snd (tryBlock userPrompt tabId o w)) = trace w ++ new
    /\ Forall (abortsOnly (o_controller o)) new.
Proof.
  unfold tryBlock.
  match goal with
  | |- context [bind (assign (set_abortController _)) (fun _ => ?rest)] =>
      assert (appendsWith (o_controller o) (abortsOnly (o_controller o)) rest) as Hrest
        by auto 20 with appends;
      change (exists new,
                 trace (snd (rest {| handler := streamingFrom o (handler w);
                                     trace := trace w |})) = trace w ++ new
                 /\ Forall (abortsOnly (o_controller o)) new)
  end.
  apply (Hrest {| handler := streamingFrom o (handler w); trace := trace w |}).
  reflexivity.
Qed.

Lemma catchBlock_appends tabId o e c w :
  exists new,
    trace (snd (catchBlock tabId o e w)) = trace w ++ new /\ Forall (abortsOnly c) new.
Proof.
  unfold catchBlock, bind. rewrite messenger_run.
  destruct (o_messenger o _) as [[]|e1]; simpl.
  - rewrite messenger_run. simpl. eexists. rewrite <- app_assoc. split; [reflexivity|].
    repeat constructor; intros c' H; discriminate H.
  - eexists. split; [reflexivity|]. repeat constructor; intros c' H; discriminate H.
Qed.


(** *** The chat input is enabled again *)

Lemma endsWith_bind {A B} ev (m : M A) (k : A -> M B) :
  (forall a, endsWith ev (k a)) -> endsWith ev (bind m k).
Proof.
  intros Hk w b w'. unfold bind.
  destruct (m w) as [[a | e |] w1]; [apply Hk | discriminate..].
Qed.

Lemma endsWith_messenger o ev : endsWith ev (messenger o ev).
Proof.
  intros w a w'. rewrite messenger_run.
  destruct (o_messenger o ev); [|discriminate].
  intros [= _ <-]. simpl. apply last_snoc.
Qed.

Lemma tryBlock_endsWith userPrompt tabId o :
  endsWith (SendChatInputEnabled tabId true) (tryBlock userPrompt tabId o).
Proof.
  unfold tryBlock. do 7 (apply endsWith_bind; intros ?). apply endsWith_messenger.
Qed.

(** X9: when no call of the messenger throws, a call of
    [processUserPrompt] that completes has either done nothing at all (the
    client could not be created, and the chat input was never disabled) or
    made, as its last call, the one that enables the chat input of the tab
    again: after a response or after an error, the input is not left
    disabled. *)
Theorem processUserPrompt_enables_input_last userPrompt tabId o w :
  (forall ev, o_messenger o ev = Ok tt) ->
  completed (fst (processUserPrompt userPrompt tabId o w)) = true ->
  (streamingClient (handler w) = None
   /\ (forall client, o_createClient o <> Returned client)
   /\ snd (processUserPrompt userPrompt tabId o w) = w)
  \/ last (trace (snd (processUserPrompt userPrompt tabId o w)))
     = Some (SendChatInputEnabled tabId true).
Proof.
  intros Hmessenger.
  assert (forall w1,
            completed (fst (try_catch_finally (tryBlock userPrompt tabId o)
                              (catchBlock tabId o) finallyBlock w1)) = true ->
            last (trace (snd (try_catch_finally (tryBlock userPrompt tabId o)
                                (catchBlock tabId o) finallyBlock w1)))
            = Some (SendChatInputEnabled tabId true)) as Htry.
  { intros w1. unfold try_catch_finally.
    pose proof (tryBlock_endsWith userPrompt tabId o w1) as Hend.
    destruct (tryBlock userPrompt tabId o w1) as [[[] | e |] w2]; simpl.
    - intros _. exact (Hend tt w2 eq_refl).
    - intros _. unfold catchBlock, bind.
      rewrite messenger_run, Hmessenger. rewrite messenger_run, Hmessenger.
      cbn [handler trace fst snd]. apply last_snoc.
    - discriminate. }
  unfold processUserPrompt, bind.
  destruct (StreamingTheorems.ensureClient_cases o w)
    as [[_ ->] | [(client & _ & _ & ->) | (Hnone & Hcreate & ->)]].
  - intros Hdone. right. by apply Htry.
  - intros Hdone. right. by apply Htry.
  - intros _. left. split; [exact Hnone|]. split; [exact Hcreate|].
    destruct (o_createClient o); reflexivity.
Qed.

(** The theorem on the first call on a new handler, with the sample
    stream. *)
Lemma processUserPrompt_enables_input_last_witness :
  last (trace (snd (processUserPrompt "hi" "tab-1" sampleOracle newWorld)))
  = Some (SendChatInputEnabled "tab-1" true).
Proof.
  destruct (processUserPrompt_enables_input_last "hi" "tab-1" sampleOracle newWorld
              (fun _ => eq_refl) eq_refl) as [(_ & Hcreate & _) | Hlast].
  - destruct (Hcreate 1 eq_refl).
  - exact Hlast.
Defined.

(** The theorem of the whole text on a handler that is streaming. *)
Lemma streamResponse_sends_whole_text_witness :
  exists updates,
    streamResponse sampleOracle "hi" "tab-1" streamingWorld
    = (Returned tt,
       {| handler := handler streamingWorld;
          trace := GenerateAssistantResponse "conversation-1" "hi" (Some 7)
                   :: updates
                   ++ [ SendShortSummary "Hello, world" "answer" "tab-1" "message-1" true;
                        SendChatInputEnabled "tab-1" true ] |}).
Proof.
  exact (streamResponse_sends_whole_text sampleOracle "hi" "tab-1" streamingWorld 1
           eq_refl eq_refl eq_refl eq_refl eq_refl).
Defined.

End StreamingMoreTheorems.

(** ** Messages *)

Module MessagesTheorems.
Import Messages.

(** X10: [handleOverwriteConflict] does not wait for the answer to its
    confirmation: whatever the user picks, or if the dialog is dismissed,
    the outcome and the calls are the same; when the location exists it is
    deleted, and the error for a refused overwrite is never thrown: the
    call returns true or throws the error of the failed deletion. *)
Theorem handleOverwriteConflict_ignores_answer
    localizedConfirm localizedCancel localize basename env location selection :
  handleOverwriteConflict localizedConfirm localizedCancel localize basename env selection location
  = handleOverwriteConflict localizedConfirm localizedCancel localize basename env None location
  /\ (fsExists env = true ->
      last (snd (handleOverwriteConflict localizedConfirm localizedCancel localize basename env selection location))
      = Some (FsDelete location))
  /\ (fst (handleOverwriteConflict localizedConfirm localizedCancel localize basename env selection location) = Ok true
      \/ fsExists env = true
         /\ (exists e, fsDelete env = Throw e)
         /\ fst (handleOverwriteConflict localizedConfirm localizedCancel localize basename env selection location)
            = Throw (ToolkitError
                       ("Failed to delete existing folder: " +:+ basename location))).
Proof.
  unfold handleOverwriteConflict, showConfirmationMessage. simpl.
  destruct (fsExists env); simpl.
  2: { split; [reflexivity|]. split; [discriminate | by left]. }
  destruct (fsDelete env) as [[]|e]; simpl.
  - split; [reflexivity|]. split; [reflexivity | by left].
  - split; [reflexivity|]. split; [reflexivity|]. right. eauto.
Qed.


Lemma showOnceEach_shown calls :
  Forall (fun c => fst c = true) calls -> showOnceEach true calls = (true, 0).
Proof.
  induction calls as [|[updated promise] calls IH]; [reflexivity|].
  intros Hall. inversion Hall; subst. simpl. by rewrite IH.
Qed.



End MessagesTheorems.

(** ** More of the zip utility *)

Module ZipMoreTheorems.
Import Zip ZipMore Samples.

(** *** The directory of the archive *)

(** X13: once [getZipDirPath] has given a directory that is not the
    empty string, every later call gives the same directory and changes
    nothing, whatever the use case it is called for: the directory is
    named after the use case of the first call. *)
Theorem getZipDirPath_stable P this useCase useCase' :
  fst (getZipDirPath P this useCase) <> "" ->
  getZipDirPath P (snd (getZipDirPath P this useCase)) useCase'
  = (fst (getZipDirPath P this useCase), snd (getZipDirPath P this useCase)).
Proof.
  unfold getZipDirPath. case_bool_decide as Hempty; simpl.
  - intros Hdir. rewrite bool_decide_false by exact Hdir. reflexivity.
  - intros _. rewrite bool_decide_false by exact Hempty. reflexivity.
Qed.

(** The theorem on the sample object: a test generation after a code
    scan gets the directory of the code scan. *)
Lemma getZipDirPath_stable_witness :
  getZipDirPath samplePlatform (snd (getZipDirPath samplePlatform nearlyFull CODE_SCAN))
    TEST_GENERATION
  = ("/tmp/codewhisperer_scan_1700000000000",
     snd (getZipDirPath samplePlatform nearlyFull CODE_SCAN)).
Proof.
  apply (getZipDirPath_stable samplePlatform nearlyFull CODE_SCAN TEST_GENERATION).
  discriminate.
Defined.

(** *** Lines *)

Lemma splitNewlineRegex_nonempty s : splitNewlineRegex s <> [].
Proof.
  destruct s as [|c [|c2 r2]]; simpl; try discriminate.
  - case_bool_decide; discriminate.
  - case_bool_decide; [discriminate|].
    destruct (_ && _); [discriminate|].
    destruct (if bool_decide (c2 = LF) then _ else _); discriminate.
Qed.

Lemma length_consHead c pieces : pieces <> [] -> length (consHead c pieces) = length pieces.
Proof. destruct pieces; [congruence | reflexivity]. Qed.

Lemma CR_not_LF : CR <> LF.
Proof. discriminate. Qed.

Lemma splitNewlineRegex_length s :
  length (splitNewlineRegex s) = S (countLF s).
Proof.
  assert (forall n s, String.length s <= n ->
            length (splitNewlineRegex s) = S (countLF s)) as Hgen.
  { intros n. induction n as [|n IH]; intros s0 Hlen.
    - destruct s0; [reflexivity | simpl in Hlen; lia].
    - destruct s0 as [|c r]; [reflexivity|].
      simpl in Hlen.
      change (splitNewlineRegex (String c r))
        with (if bool_decide (c = LF) then "" :: splitNewlineRegex r
              else match r with
                   | String c2 r2 =>
                       if bool_decide (c = CR) && bool_decide (c2 = LF)
                       then "" :: splitNewlineRegex r2
                       else consHead c (splitNewlineRegex r)
                   | "" => consHead c (splitNewlineRegex r)
                   end).
      change (countLF (String c r))
        with ((if bool_decide (c = LF) then 1 else 0) + countLF r).
      case_bool_decide as Hc.
      + simpl. rewrite IH by lia. reflexivity.
      + destruct r as [|c2 r2].
        * reflexivity.
        * destruct (bool_decide (c = CR) && bool_decide (c2 = LF)) eqn:Hcrlf.
          -- apply andb_true_iff in Hcrlf as [_ Hc2%bool_decide_eq_true].
             subst c2. simpl in Hlen. simpl length. rewrite IH by lia.
             change (countLF (String LF r2)) with (1 + countLF r2). lia.
          -- rewrite length_consHead by apply splitNewlineRegex_nonempty.
             rewrite IH by lia. reflexivity. }
  apply (Hgen (String.length s)). lia.
Qed.

(** X14: a text file that [processTextFile] accepts adds to
    [_totalLines] one more than the number of line feeds of its content: an
    empty file counts for one line, and a carriage return before a line
    feed does not count for a line of its own. *)
Theorem processTextFile_counts_line_feeds
    P this zip uri fileContent languageCount zipEntryPath :
  length (splitNewlineRegex fileContent) = S (countLF fileContent)
  /\ (fst (processTextFile P this zip uri fileContent languageCount zipEntryPath) = Ok tt ->
      _totalLines (fst (fst (snd (processTextFile P this zip uri fileContent
                                    languageCount zipEntryPath))))
      = (_totalLines this + 1 + Z.of_nat (countLF fileContent))%Z).
Proof.
  split; [apply splitNewlineRegex_length|].
  unfold processTextFile. destruct (_ || _); [discriminate|].
  intros _. simpl. rewrite splitNewlineRegex_length. lia.
Qed.

(** *** The project limit *)

Lemma size_check P total fileSize :
  reachSizeLimit P total PROJECT || willReachSizeLimit P total fileSize = false ->
  (total <= projectScanPayloadSizeLimitBytes P)%Z
  /\ (total + fileSize <= projectScanPayloadSizeLimitBytes P)%Z.
Proof.
  unfold reachSizeLimit, willReachSizeLimit, getProjectScanPayloadSizeLimitInBytes.
  simpl. rewrite orb_false_iff, !Z.gtb_ltb, !Z.ltb_ge. tauto.
Qed.

Lemma size_check_true P total fileSize :
  reachSizeLimit P total PROJECT || willReachSizeLimit P total fileSize = true ->
  (total > projectScanPayloadSizeLimitBytes P)%Z
  \/ (total + fileSize > projectScanPayloadSizeLimitBytes P)%Z.
Proof.
  unfold reachSizeLimit, willReachSizeLimit, getProjectScanPayloadSizeLimitInBytes.
  simpl. rewrite orb_true_iff, !Z.gtb_ltb, !Z.ltb_lt. lia.
Qed.

(** X15: a file that [processTextFile] or [processBinaryFile] accepts is
    added to the picked files and its size to [_totalSize], which is then
    at most the project limit, whatever it was before; a binary file adds no
    line; and when the size of a binary file cannot be read nothing
    changes. *)
Theorem accepted_file_within_project_limit
    P path_dirname this zip uri fileContent languageCount zipEntryPath statSize :
  (fst (processTextFile P this zip uri fileContent languageCount zipEntryPath) = Ok tt ->
   let this' := fst (fst (snd (processTextFile P this zip uri fileContent languageCount
                                 zipEntryPath))) in
   _totalSize this' = (_totalSize this + byteLength P fileContent)%Z
   /\ (_totalSize this' <= projectScanPayloadSizeLimitBytes P)%Z
   /\ _pickedSourceFiles this' = {[ fsPath uri ]} ∪ _pickedSourceFiles this)
  /\ (fst (processBinaryFile P path_dirname this zip uri zipEntryPath statSize) = Ok tt ->
      let this' := fst (snd (processBinaryFile P path_dirname this zip uri zipEntryPath
                               statSize)) in
      exists fileSize,
        statSize = Some fileSize
        /\ _totalSize this' = (_totalSize this + fileSize)%Z
        /\ (_totalSize this' <= projectScanPayloadSizeLimitBytes P)%Z
        /\ _pickedSourceFiles this' = {[ fsPath uri ]} ∪ _pickedSourceFiles this
        /\ _totalLines this' = _totalLines this)
  /\ (statSize = None ->
      processBinaryFile P path_dirname this zip uri zipEntryPath statSize
      = (Throw IOError, (this, zip))).
Proof.
  split; [|split].
  - unfold processTextFile.
    destruct (_ || _) eqn:Hcheck; [discriminate|].
    apply size_check in Hcheck as [_ Hsum]. intros _. simpl. auto.
  - unfold processBinaryFile. destruct statSize as [fileSize|]; [|discriminate].
    destruct (_ || _) eqn:Hcheck; [discriminate|].
    apply size_check in Hcheck as [_ Hsum]. intros _. simpl.
    exists fileSize. auto.
  - intros ->. reflexivity.
Qed.

(** *** The files outside the workspace *)

Lemma sizeOf_app P done rest :
  sizeOf P (done ++ rest) = (sizeOf P done + sizeOf P rest)%Z.
Proof.
  induction done as [|d done IH]; simpl; [reflexivity|].
  unfold sizeOf in *. simpl. rewrite IH. lia.
Qed.

Lemma processTextFiles_cons P this zip languageCount d documents :
  processTextFiles P this zip languageCount (d :: documents)
  = if reachSizeLimit P (_totalSize this) PROJECT
       || willReachSizeLimit P (_totalSize this) (byteLength P (doc_text d))
    then (Throw ProjectSizeExceededError, (this, zip, languageCount))
    else
      processTextFiles P
        (set_totalLines
           (_totalLines this + Z.of_nat (length (splitNewlineRegex (doc_text d))))
           (set_totalSize (_totalSize this + byteLength P (doc_text d))
              (set_pickedSourceFiles ({[ fsPath (doc_uri d) ]} ∪ _pickedSourceFiles this)
                 this)))
        (zip ++ [entryOf d])
        (incrementCountForLanguage P (doc_uri d) languageCount)
        documents.
Proof.
  simpl. unfold processTextFile. by destruct (_ || _).
Qed.

Lemma processTextFiles_run P documents :
  forall this zip languageCount,
    exists done rest,
      documents = done ++ rest
      /\ _totalSize (fst (fst (snd (processTextFiles P this zip languageCount documents))))
         = (_totalSize this + sizeOf P done)%Z
      /\ snd (fst (snd (processTextFiles P this zip languageCount documents)))
         = zip ++ map entryOf done
      /\ (done <> [] ->
          (_totalSize (fst (fst (snd (processTextFiles P this zip languageCount
                                        documents))))
           <= projectScanPayloadSizeLimitBytes P)%Z)
      /\ (fst (processTextFiles P this zip languageCount documents) = Ok tt /\ rest = []
          \/ fst (processTextFiles P this zip languageCount documents)
             = Throw ProjectSizeExceededError
             /\ exists document rest',
                  rest = document :: rest'
                  /\ ((_totalSize this + sizeOf P done
                        > projectScanPayloadSizeLimitBytes P)%Z
                      \/ (_totalSize this + sizeOf P done
                            + byteLength P (doc_text document)
                          > projectScanPayloadSizeLimitBytes P)%Z)).
Proof.
  induction documents as [|d documents IH]; intros this zip languageCount.
  - exists [], []. simpl. rewrite app_nil_r, Z.add_0_r.
    split; [reflexivity|]. split; [reflexivity|]. split; [reflexivity|].
    split; [congruence|]. left. by split.
  - rewrite processTextFiles_cons.
    destruct (_ || _) eqn:Hcheck.
    + exists [], (d :: documents). simpl. rewrite app_nil_r, Z.add_0_r.
      split; [reflexivity|]. split; [reflexivity|]. split; [reflexivity|].
      split; [congruence|].
      right. split; [reflexivity|]. exists d, documents. split; [reflexivity|].
      by apply size_check_true.
    + apply size_check in Hcheck as [_ Hsum].
      match goal with
      | |- context [processTextFiles P ?this1 ?zip1 ?lc1 documents] =>
          destruct (IH this1 zip1 lc1) as (done & rest & Hsplit & Hsize & Hzip & Hlimit & Hend)
      end.
      exists (d :: done), rest. simpl in Hsize, Hlimit, Hend.
      split; [by rewrite Hsplit|].
      split; [rewrite Hsize; unfold sizeOf; simpl; lia|].
      split; [rewrite Hzip, <- app_assoc; reflexivity|].
      split.
      * intros _. destruct done as [|d' done]; [|apply Hlimit; discriminate].
        rewrite Hsize. unfold sizeOf. simpl. lia.
      * destruct Hend as [Hok | (Hthrow & document & rest' & -> & Hover)]; [by left|].
        right. split; [exact Hthrow|]. exists document, rest'. split; [reflexivity|].
        unfold sizeOf in *. simpl. lia.
Qed.

(** X16: [processOtherFiles] takes the open documents that are files
    outside every workspace folder, in order.  It either adds them all, or
    stops with [ProjectSizeExceededError] at the first one that would take
    the size above the project limit; in both cases the documents before
    that one are in the archive and in [_totalSize], which stays within the
    limit once a document has been added. *)
Theorem processOtherFiles_adds_prefix P this zip languageCount textDocuments :
  exists done rest,
    otherFiles textDocuments = done ++ rest
    /\ Forall (fun document => doc_scheme document = "file"
                                /\ doc_workspaceFolder document = None) done
    /\ _totalSize (fst (fst (snd (processOtherFiles P this zip languageCount
                                    textDocuments))))
       = (_totalSize this + sizeOf P done)%Z
    /\ snd (fst (snd (processOtherFiles P this zip languageCount textDocuments)))
       = zip ++ map entryOf done
    /\ (done <> [] ->
        (_totalSize (fst (fst (snd (processOtherFiles P this zip languageCount
                                      textDocuments))))
         <= projectScanPayloadSizeLimitBytes P)%Z)
    /\ (fst (processOtherFiles P this zip languageCount textDocuments) = Ok tt
        /\ rest = []
        \/ fst (processOtherFiles P this zip languageCount textDocuments)
           = Throw ProjectSizeExceededError
           /\ exists document rest',
                rest = document :: rest'
                /\ ((_totalSize this + sizeOf P done
                      > projectScanPayloadSizeLimitBytes P)%Z
                    \/ (_totalSize this + sizeOf P done
                          + byteLength P (doc_text document)
                        > projectScanPayloadSizeLimitBytes P)%Z)).
Proof.
  unfold processOtherFiles.
  destruct (processTextFiles_run P (otherFiles textDocuments) this zip languageCount)
    as (done & rest & Hsplit & Hsize & Hzip & Hlimit & Hend).
  exists done, rest. split; [exact Hsplit|]. split; [|by repeat split].
  assert (Forall (fun document => doc_scheme document = "file"
                                  /\ doc_workspaceFolder document = None)
            (otherFiles textDocuments)) as Hall.
  { unfold otherFiles. apply Forall_forall. intros d Hd.
    apply list_elem_of_filter in Hd as [Hnone Hd].
    apply list_elem_of_filter in Hd as [Hfile _]. by split. }
  rewrite Hsplit in Hall. apply Forall_app in Hall. tauto.
Qed.

(** *** The language of the project *)

Lemma fold_moreUsed others :
  forall first,
    exists before after,
      first :: others = before ++ fold_left moreUsed others first :: after
      /\ Forall (fun e => (snd e < snd (fold_left moreUsed others first))%Z) before
      /\ Forall (fun e => (snd e <= snd (fold_left moreUsed others first))%Z) after.
Proof.
  induction others as [|b others IH]; intros first.
  - exists [], []. simpl. split; [reflexivity|]. split; constructor.
  - change (fold_left moreUsed (b :: others) first)
      with (fold_left moreUsed others (moreUsed first b)).
    destruct (snd b >? snd first)%Z eqn:Hgt.
    + assert (moreUsed first b = b) as -> by (unfold moreUsed; by rewrite Hgt).
      apply Z.gtb_lt in Hgt.
      destruct (IH b) as (before & after & Hsplit & Hbefore & Hafter).
      exists (first :: before), after.
      split; [simpl; by rewrite <- Hsplit|]. split; [|exact Hafter].
      constructor; [|exact Hbefore]. simpl.
      destruct before as [|b' before]; simpl in Hsplit.
      * injection Hsplit as Hb _. rewrite <- Hb. lia.
      * injection Hsplit as Hb _. subst b'. inversion Hbefore; subst. simpl in *. lia.
    + assert (moreUsed first b = first) as -> by (unfold moreUsed; by rewrite Hgt).
      rewrite Z.gtb_ltb, Z.ltb_ge in Hgt.
      destruct (IH first) as (before & after & Hsplit & Hbefore & Hafter).
      destruct before as [|f before]; simpl in Hsplit.
      * injection Hsplit as Hfirst Hothers. exists [], (b :: after).
        split; [simpl; by rewrite <- Hfirst, <- Hothers|]. split; [constructor|].
        constructor; [rewrite <- Hfirst; lia | exact Hafter].
      * injection Hsplit as Hf Hothers. subst f. exists (first :: b :: before), after.
        split; [simpl; do 2 f_equal; exact Hothers|]. split; [|exact Hafter].
        inversion Hbefore; subst.
        constructor; [assumption|]. constructor; [simpl in *; lia | assumption].
Qed.

(** X17: [zipProject] throws [NoSourceFilesError] exactly when no
    language was counted; otherwise the language it keeps is one with the
    highest count and, among those, the one that was counted first: every
    entry before it has a strictly lower count. *)
Theorem mostUsedLanguage_first_maximum entries :
  (mostUsedLanguage entries = None <-> entries = [])
  /\ (forall language, mostUsedLanguage entries = Some language ->
        exists count before after,
          entries = before ++ (language, count) :: after
          /\ Forall (fun e => (snd e < count)%Z) before
          /\ Forall (fun e => (snd e <= count)%Z) after).
Proof.
  destruct entries as [|first others]; simpl.
  - split; [tauto | discriminate].
  - split; [split; discriminate|].
    intros language [= <-].
    destruct (fold_moreUsed others first) as (before & after & Hsplit & Hbefore & Hafter).
    destruct (fold_left moreUsed others first) as [language count] eqn:Hfold.
    exists count, before, after. simpl in *. auto.
Qed.

End ZipMoreTheorems.
(** ** Connecting to an instance *)

Module Ec2ConnectTheorems.
Import Ec2 Ec2Connect.

Lemma await_run {A} call (result : Result A) calls :
  await call result calls = (settled result, calls ++ [call]).
Proof. reflexivity. Qed.

Lemma getRemoteUser_run services instanceId calls :
  getRemoteUser services instanceId calls
  = (match getTargetPlatformName services instanceId with
     | Ok platform =>
         if bool_decide (platform = "Amazon Linux")
         then Returns {| name := "ec2-user"; os := AmazonLinux |}
         else if bool_decide (platform = "Ubuntu")
         then Returns {| name := "ubuntu"; os := Ubuntu |}
         else Throws (ToolkitErrorWithCode
                        ("Unrecognized OS name " +:+ platform +:+ " on instance "
                         +:+ instanceId) "UnknownEc2OS")
     | Throw e => Throws (Other e)
     end, calls ++ [GetTargetPlatformName instanceId]).
Proof.
  unfold getRemoteUser, bind. rewrite await_run.
  destruct (getTargetPlatformName services instanceId) as [platform|e]; simpl;
    [|reflexivity].
  by repeat case_bool_decide.
Qed.

Lemma getRemoteUser_isLinux services instanceId calls remoteUser calls' :
  getRemoteUser services instanceId calls = (Returns remoteUser, calls') ->
  isLinux (os remoteUser) = true.
Proof.
  rewrite getRemoteUser_run.
  destruct (getTargetPlatformName services instanceId) as [platform|e];
    [|discriminate].
  repeat case_bool_decide; intros [= <- _]; reflexivity.
Qed.

(** X18: [getRemoteUser] returns a user exactly when the platform of
    the instance is Amazon Linux or Ubuntu.  The user it returns has that
    platform as its system, which is a Linux, and the name [ec2-user] or
    [ubuntu] that goes with it; for every other platform name, [macOS]
    among them, it throws a [ToolkitError] with the code [UnknownEc2OS]. *)
Theorem getRemoteUser_returns_linux_users services instanceId calls :
  ((exists remoteUser, fst (getRemoteUser services instanceId calls) = Returns remoteUser)
   <-> getTargetPlatformName services instanceId = Ok "Amazon Linux"
       \/ getTargetPlatformName services instanceId = Ok "Ubuntu")
  /\ (forall remoteUser,
        fst (getRemoteUser services instanceId calls) = Returns remoteUser ->
        getTargetPlatformName services instanceId = Ok (literal (os remoteUser))
        /\ isLinux (os remoteUser) = true
        /\ name remoteUser = match os remoteUser with
                             | AmazonLinux => "ec2-user"
                             | _ => "ubuntu"
                             end)
  /\ (forall platform,
        getTargetPlatformName services instanceId = Ok platform ->
        platform <> "Amazon Linux" -> platform <> "Ubuntu" ->
        exists message,
          fst (getRemoteUser services instanceId calls)
          = Throws (ToolkitErrorWithCode message "UnknownEc2OS")).
Proof.
  rewrite getRemoteUser_run.
  destruct (getTargetPlatformName services instanceId) as [platform|e]; simpl.
  - repeat case_bool_decide; subst.
    + split; [split; [by left | eauto]|]. split.
      * intros remoteUser [= <-]. by repeat split.
      * intros platform [= <-]. congruence.
    + split; [split; [by right | eauto]|]. split.
      * intros remoteUser [= <-]. by repeat split.
      * intros platform [= <-]. congruence.
    + split; [split; [intros [? ?]; discriminate | intros [[= ?] | [= ?]]; congruence]|].
      split; [discriminate|]. intros ? [= <-] _ _. eauto.
  - split; [split; [intros [? ?]; discriminate | intros [? | ?]; discriminate]|].
    split; discriminate.
Qed.

Example getRemoteUser_macOS :
  fst (getRemoteUser
         {| getInstanceStatus := getInstanceStatus healthy;
            getAttachedIamInstanceProfile := getAttachedIamInstanceProfile healthy;
            getIAMRoleFromInstanceProfile := getIAMRoleFromInstanceProfile healthy;
            getDeniedSsmActions := getDeniedSsmActions healthy;
            promptToAddInlinePolicy := promptToAddInlinePolicy healthy;
            waitUntilAgentOnline := waitUntilAgentOnline healthy;
            getTargetPlatformName := fun _ => Ok (literal macOS);
            getPublicKey := getPublicKey healthy;
            sendCommandAndWait := sendCommandAndWait healthy |}
         "i-0123" [])
  = Throws (ToolkitErrorWithCode "Unrecognized OS name macOS on instance i-0123"
              "UnknownEc2OS").
Proof. reflexivity. Qed.

(** *** Sending the key *)

Lemma tryCleanKeys_run services instanceId hostOS path calls :
  tryCleanKeys services instanceId hintComment hostOS path calls
  = (Returns tt,
     calls ++ [SendCommandAndWait instanceId "AWS-RunShellScript"
                 ("sed -i" +:+ (if isLinux hostOS then "" else " ''")
                  +:+ " /" +:+ hintComment +:+ "/d " +:+ path)]).
Proof.
  unfold tryCleanKeys, try_catch, bind, liftResult, this_sendCommandAndWait.
  unfold getRemoveLinesCommand.
  change (includes "/" hintComment) with false. cbn iota.
  cbn [settled]. rewrite await_run.
  by destruct (sendCommandAndWait services _ _ _) as [[]|e].
Qed.

(** X19: for a user that [getRemoteUser] has returned and a public
    key that can be read, [sendSshKeyToInstance] reads the key and sends two
    commands to the instance, in this order: the [sed] command in its Linux
    form that removes the lines with the hint comment from the authorized
    keys of that user, then the command that writes the key.  Its outcome is
    that of the second command, whatever the first one does. *)
Theorem sendSshKeyToInstance_cleans_then_writes
    services selection id calls0 calls1 remoteUser sshPubKey calls :
  getRemoteUser services id calls0 = (Returns remoteUser, calls1) ->
  getPublicKey services = Ok sshPubKey ->
  sendSshKeyToInstance services selection remoteUser calls
  = (settled (sendCommandAndWait services (instanceId selection) "AWS-RunShellScript"
                (writeKeyCommand remoteUser sshPubKey)),
     calls ++ [GetPublicKey;
               SendCommandAndWait (instanceId selection) "AWS-RunShellScript"
                 ("sed -i /#AWSToolkitForVSCode/d /home/" +:+ name remoteUser
                  +:+ "/.ssh/authorized_keys");
               SendCommandAndWait (instanceId selection) "AWS-RunShellScript"
                 (writeKeyCommand remoteUser sshPubKey)]).
Proof.
  intros Huser Hkey.
  assert (isLinux (os remoteUser) = true) as Hlinux.
  { by apply (getRemoteUser_isLinux services id calls0 remoteUser calls1). }
  unfold sendSshKeyToInstance, bind. rewrite await_run, Hkey. cbn [settled].
  rewrite tryCleanKeys_run, Hlinux. unfold this_sendCommandAndWait.
  rewrite await_run, <- !app_assoc. reflexivity.
Qed.

Lemma sendSshKeyToInstance_cleans_then_writes_witness :
  sendSshKeyToInstance troubled sampleSelection {| name := "ubuntu"; os := Ubuntu |} []
  = (Returns tt,
     [GetPublicKey;
      SendCommandAndWait "i-0123" "AWS-RunShellScript"
        "sed -i /#AWSToolkitForVSCode/d /home/ubuntu/.ssh/authorized_keys";
      SendCommandAndWait "i-0123" "AWS-RunShellScript"
        (writeKeyCommand {| name := "ubuntu"; os := Ubuntu |} "ssh-ed25519 AAAA")]).
Proof.
  apply (sendSshKeyToInstance_cleans_then_writes troubled sampleSelection "i-0123" []
           [GetTargetPlatformName "i-0123"] {| name := "ubuntu"; os := Ubuntu |}
           "ssh-ed25519 AAAA" []); reflexivity.
Defined.

(** *** The key that is written *)

Lemma countLF_app a b : ZipMore.countLF (a +:+ b) = ZipMore.countLF a + ZipMore.countLF b.
Proof.
  induction a as [|c a IH]; [reflexivity|].
  change (String c a +:+ b) with (String c (a +:+ b)).
  cbn [ZipMore.countLF]. rewrite IH. lia.
Qed.

Lemma countLF_replaceFirstLF s :
  ZipMore.countLF (replaceFirstLF s) = Nat.pred (ZipMore.countLF s).
Proof.
  induction s as [|c s IH]; [reflexivity|].
  cbn [replaceFirstLF ZipMore.countLF].
  case_bool_decide; [reflexivity|].
  cbn [ZipMore.countLF]. rewrite bool_decide_eq_false_2 by assumption.
  exact IH.
Qed.

(** X20: the command that [sendSshKeyToInstance] writes the key with
    has lost one line feed of the public key, the first one, and no more:
    a key with two line feeds gives a command of two lines. *)
Theorem writeKeyCommand_drops_one_line_feed remoteUser sshPubKey :
  ZipMore.countLF (name remoteUser) = 0 ->
  ZipMore.countLF (writeKeyCommand remoteUser sshPubKey)
  = Nat.pred (ZipMore.countLF sshPubKey).
Proof.
  intros Hname. unfold writeKeyCommand, appendStr, remoteAuthorizedKeysPath.
  rewrite countLF_app.
  change (ZipMore.countLF (String Zip.quote ?s)) with (ZipMore.countLF s).
  rewrite !countLF_app.
  change (ZipMore.countLF (String Zip.quote ?s)) with (ZipMore.countLF s).
  rewrite !countLF_app, countLF_replaceFirstLF, Hname.
  change (ZipMore.countLF "echo ") with 0.
  change (ZipMore.countLF " ") with 0.
  change (ZipMore.countLF hintComment) with 0.
  change (ZipMore.countLF " >> ") with 0.
  change (ZipMore.countLF "/home/") with 0.
  change (ZipMore.countLF "/.ssh/authorized_keys") with 0.
  lia.
Qed.

Lemma writeKeyCommand_drops_one_line_feed_witness :
  ZipMore.countLF
    (writeKeyCommand {| name := "ubuntu"; os := Ubuntu |}
       ("ssh-ed25519 AAAA" +:+ String Zip.LF (String Zip.LF "")))
  = 1.
Proof.
  apply (writeKeyCommand_drops_one_line_feed {| name := "ubuntu"; os := Ubuntu |}
           ("ssh-ed25519 AAAA" +:+ String Zip.LF (String Zip.LF ""))).
  reflexivity.
Defined.

(** *** The checks before a session *)

Ltac run_checks :=
  unfold checkForStartSessionError, checkForInstanceStatusError,
    checkForInstancePermissionsError, checkForInstanceSsmError, isInstanceRunning,
    getAttachedIamRole, hasProperPermissions, throwConnectionError, bind, ret, throw,
    await;
  cbn [fst snd default].

Ltac reduce_checks :=
  cbv beta iota delta [settled fst snd negb default from_option id Arn profile_Arn].

Ltac settle :=
  reduce_checks;
  repeat (match goal with
          | |- context [match ?r with Ok _ => _ | Throw _ => _ end] => destruct r eqn:?
          | |- context [bool_decide ?p] => destruct (bool_decide p) eqn:?
          | |- context [match ?x with _ => _ end] => is_var x; destruct x
          end; reduce_checks).

(** X21: [checkForStartSessionError] checks the state of the instance
    first, then its permissions, then its agent, and stops at the first
    check that fails.  An instance that is not running is reported with the
    code [EC2SSMStatus] after the one call that reads its status.  The user
    is asked to add a policy only for a running instance whose role is
    denied some action, and the method is cancelled only by the refusal of
    the user.  It returns only for a running instance whose agent was found
    online by the last call, and the errors of its own have one of the
    three codes of the checks. *)
Theorem checkForStartSessionError_checks_in_order services selection calls :
  exists made,
    snd (checkForStartSessionError services selection calls) = calls ++ made
    /\ head made = Some (GetInstanceStatus (instanceId selection))
    /\ (forall status,
          getInstanceStatus services (instanceId selection) = Ok status ->
          status <> "running" ->
          made = [GetInstanceStatus (instanceId selection)]
          /\ exists message,
               fst (checkForStartSessionError services selection calls)
               = Throws (ToolkitErrorWithCode message "EC2SSMStatus"))
    /\ (forall roleArn,
          PromptToAddInlinePolicy roleArn ∈ made ->
          getInstanceStatus services (instanceId selection) = Ok "running"
          /\ exists denied,
               getDeniedSsmActions services roleArn = Ok denied /\ denied <> [])
    /\ (forall agent,
          fst (checkForStartSessionError services selection calls)
          = Throws (CancellationError agent) ->
          agent = "user"
          /\ exists roleArn,
               promptToAddInlinePolicy services roleArn = Ok false
               /\ last made = Some (PromptToAddInlinePolicy roleArn))
    /\ (fst (checkForStartSessionError services selection calls) = Returns tt ->
        getInstanceStatus services (instanceId selection) = Ok "running"
        /\ waitUntilAgentOnline services (instanceId selection) = Ok (Some true)
        /\ last made = Some (WaitUntilAgentOnline (instanceId selection) 500 5000))
    /\ (forall message code,
          fst (checkForStartSessionError services selection calls)
          = Throws (ToolkitErrorWithCode message code) ->
          code = "EC2SSMStatus" \/ code = "EC2SSMPermission"
          \/ code = "EC2SSMAgentStatus").
Proof.
  run_checks; settle;
    rewrite <- ?app_assoc; eexists; (split; [reflexivity|]);
    (split; [reflexivity|]);
    repeat match goal with
           | H : bool_decide _ = true |- _ => apply bool_decide_eq_true_1 in H
           | H : bool_decide _ = false |- _ => apply bool_decide_eq_false_1 in H
           end;
    subst; cbn [app last];
    repeat split; intros;
    repeat match goal with
           | H : _ ∈ _ :: _ |- _ => apply elem_of_cons in H as [H|H]
           | H : _ ∈ [] |- _ => by apply elem_of_nil in H
           end;
    repeat match goal with
           | H : length ?l <> 0 |- _ =>
               assert (l <> []) by (intros ->; by apply H); clear H
           end;
    simplify_eq; eauto 6.
Qed.

Example checkForStartSessionError_cancelled :
  checkForStartSessionError troubled sampleSelection []
  = (Throws (CancellationError "user"),
     [GetInstanceStatus "i-0123"; GetAttachedIamInstanceProfile "i-0123";
      GetIAMRoleFromInstanceProfile "arn:aws:iam::1:instance-profile/p";
      GetDeniedSsmActions "arn:aws:iam::1:role/r";
      PromptToAddInlinePolicy "arn:aws:iam::1:role/r"]).
Proof. reflexivity. Qed.

Example checkForStartSessionError_passes :
  checkForStartSessionError healthy sampleSelection []
  = (Returns tt,
     [GetInstanceStatus "i-0123"; GetAttachedIamInstanceProfile "i-0123";
      GetIAMRoleFromInstanceProfile "arn:aws:iam::1:instance-profile/p";
      GetDeniedSsmActions "arn:aws:iam::1:role/r";
      WaitUntilAgentOnline "i-0123" 500 5000]).
Proof. reflexivity. Qed.

End Ec2ConnectTheorems.
(** ** Collecting the files of a workspace *)

Module WorkspaceTheorems.
Import Workspace.

Lemma totalSize_app a b : totalSize (a ++ b) = (totalSize a + totalSize b)%Z.
Proof.
  induction a as [|item a IH]; [reflexivity|].
  unfold totalSize in *. simpl. rewrite IH. lia.
Qed.

(** What the inner loop adds. *)
Lemma collectFrom_added folders options files :
  forall totalSizeBytes storage totalSizeBytes' storage',
    collectFrom folders options files totalSizeBytes storage
    = Ok (totalSizeBytes', storage') ->
    exists added,
      storage' = storage ++ added
      /\ totalSizeBytes' = (totalSizeBytes + totalSize added)%Z
      /\ Forall (fun item => (fileSizeBytes item <= the_maxFileSizeBytes options)%Z) added
      /\ (the_includeContent options = true ->
          Forall (fun item => is_Some (fileContent item)) added)
      /\ sublist (map fileUri added)
           (map file_fsPath
                     (filter (fun file => examined options file = true) files))
      /\ (the_failOnLimit options = true -> added <> [] ->
          (totalSizeBytes' <= maxSizeBytes options)%Z).
Proof.
  induction files as [|file files IH]; intros total storage total' storage' Hrun.
  - injection Hrun as <- <-. exists []. rewrite app_nil_r. unfold totalSize. simpl.
    split; [reflexivity|]. split; [lia|]. split; [constructor|].
    split; [constructor|]. split; [constructor | congruence].
  - assert (forall added,
              storage' = storage ++ added
              /\ total' = (total + totalSize added)%Z
              /\ Forall (fun item => (fileSizeBytes item <= the_maxFileSizeBytes options)%Z)
                   added
              /\ (the_includeContent options = true ->
                  Forall (fun item => is_Some (fileContent item)) added)
              /\ sublist (map fileUri added)
                   (map file_fsPath
                             (filter (fun file => examined options file = true) files))
              /\ (the_failOnLimit options = true -> added <> [] ->
                  (total' <= maxSizeBytes options)%Z) ->
              examined options file = true ->
              sublist (map fileUri added)
                (map file_fsPath
                          (filter (fun file => examined options file = true)
                             (file :: files)))) as Hskip.
    { intros added (_ & _ & _ & _ & Hsub & _) Hex.
      rewrite filter_cons_True by exact Hex. simpl. by apply sublist_cons. }
    simpl in Hrun.
    destruct (file_relativePath file) as [[folder relativePath]|] eqn:Hrel.
    2: { destruct (IH _ _ _ _ Hrun) as (added & H). exists added.
         rewrite filter_cons_False; [exact H|].
         unfold examined. rewrite Hrel. discriminate. }
    destruct (filteredOut options relativePath) eqn:Hfilter.
    { destruct (IH _ _ _ _ Hrun) as (added & H). exists added.
      rewrite filter_cons_False; [exact H|].
      unfold examined. rewrite Hrel, Hfilter. discriminate. }
    assert (examined options file = true) as Hex.
    { unfold examined. by rewrite Hrel, Hfilter. }
    destruct (file_statSize file) as [size|e]; [|discriminate].
    destruct (the_failOnLimit options && (total + size >? maxSizeBytes options)%Z)
      eqn:Hlimit; [discriminate|].
    destruct (size >? the_maxFileSizeBytes options)%Z eqn:Hsize.
    { destruct (IH _ _ _ _ Hrun) as (added & H). exists added.
      destruct H as (H1 & H2 & H3 & H4 & H5 & H6).
      split; [exact H1|]. split; [exact H2|]. split; [exact H3|].
      split; [exact H4|]. split; [|exact H6].
      apply Hskip; [by repeat split | exact Hex]. }
    rewrite Z.gtb_ltb, Z.ltb_ge in Hsize.
    destruct (prefixWithFolderPrefix folders folder relativePath) as [zipPath|e];
      [|discriminate].
    assert (forall content added,
              storage' = (storage ++ [mkCollectFilesResultItem folder relativePath
                                        (file_fsPath file) content size zipPath]) ++ added
              /\ total' = (total + size + totalSize added)%Z
              /\ Forall (fun item => (fileSizeBytes item <= the_maxFileSizeBytes options)%Z)
                   added
              /\ (the_includeContent options = true ->
                  Forall (fun item => is_Some (fileContent item)) added)
              /\ sublist (map fileUri added)
                   (map file_fsPath
                             (filter (fun file => examined options file = true) files))
              /\ (the_failOnLimit options = true -> added <> [] ->
                  (total' <= maxSizeBytes options)%Z) ->
              (the_includeContent options = true -> is_Some content) ->
              exists added',
                storage' = storage ++ added'
                /\ total' = (total + totalSize added')%Z
                /\ Forall (fun item =>
                             (fileSizeBytes item <= the_maxFileSizeBytes options)%Z) added'
                /\ (the_includeContent options = true ->
                    Forall (fun item => is_Some (fileContent item)) added')
                /\ sublist (map fileUri added')
                     (map file_fsPath
                               (filter (fun file => examined options file = true)
                                  (file :: files)))
                /\ (the_failOnLimit options = true -> added' <> [] ->
                    (total' <= maxSizeBytes options)%Z)) as Hpush.
    { intros content added (H1 & H2 & H3 & H4 & H5 & H6) Hcontent.
      exists (mkCollectFilesResultItem folder relativePath (file_fsPath file) content size
                zipPath :: added).
      split; [by rewrite H1, <- app_assoc|].
      split; [rewrite H2; unfold totalSize; simpl; lia|].
      split; [by constructor|].
      split; [intros Hinc; constructor; [by apply Hcontent | by apply H4]|].
      split.
      - rewrite filter_cons_True by exact Hex.
        simpl. by apply sublist_skip.
      - intros Hfail _. destruct added as [|item added]; [|apply H6; [exact Hfail | discriminate]].
        rewrite H2. unfold totalSize. simpl.
        rewrite Hfail in Hlimit. simpl in Hlimit.
        rewrite Z.gtb_ltb, Z.ltb_ge in Hlimit. lia. }
    destruct (the_includeContent options) eqn:Hinclude.
    + destruct (file_text file) as [content|].
      * destruct (IH _ _ _ _ Hrun) as (added & H).
        apply (Hpush (Some content) added); [exact H | by eauto].
      * destruct (IH _ _ _ _ Hrun) as (added & H). exists added.
        destruct H as (H1 & H2 & H3 & H4 & H5 & H6).
        split; [exact H1|]. split; [exact H2|]. split; [exact H3|].
        split; [exact H4|]. split; [|exact H6].
        apply Hskip; [by repeat split | exact Hex].
    + destruct (IH _ _ _ _ Hrun) as (added & H).
      apply (Hpush None added); [exact H | discriminate].
Qed.

(** What the inner loop has examined. *)
Lemma collectFrom_examined folders options files :
  the_failOnLimit options = true ->
  Forall (fun file => forall size, file_statSize file = Ok size -> (0 <= size)%Z) files ->
  forall totalSizeBytes storage totalSizeBytes' storage',
    collectFrom folders options files totalSizeBytes storage
    = Ok (totalSizeBytes', storage') ->
    (totalSizeBytes <= totalSizeBytes')%Z
    /\ Forall (fun file =>
                 examined options file = true ->
                 exists size,
                   file_statSize file = Ok size
                   /\ (totalSizeBytes + size <= maxSizeBytes options)%Z) files.
Proof.
  intros Hfail. induction 1 as [|file files Hsize _ IH];
    intros total storage total' storage' Hrun.
  - injection Hrun as <- <-. split; [lia | constructor].
  - simpl in Hrun.
    destruct (file_relativePath file) as [[folder relativePath]|] eqn:Hrel.
    2: { destruct (IH _ _ _ _ Hrun) as [Hle Hall].
         split; [exact Hle|]. constructor; [|exact Hall].
         unfold examined. rewrite Hrel. discriminate. }
    destruct (filteredOut options relativePath) eqn:Hfilter.
    { destruct (IH _ _ _ _ Hrun) as [Hle Hall].
      split; [exact Hle|]. constructor; [|exact Hall].
      unfold examined. rewrite Hrel, Hfilter. discriminate. }
    destruct (file_statSize file) as [size|e] eqn:Hfile; [|discriminate].
    specialize (Hsize size eq_refl).
    rewrite Hfail in Hrun. simpl in Hrun.
    destruct (total + size >? maxSizeBytes options)%Z eqn:Hlimit; [discriminate|].
    rewrite Z.gtb_ltb, Z.ltb_ge in Hlimit.
    assert (forall total1 storage1,
              collectFrom folders options files total1 storage1 = Ok (total', storage') ->
              (total <= total1)%Z ->
              (total <= total')%Z
              /\ Forall (fun file =>
                           examined options file = true ->
                           exists size,
                             file_statSize file = Ok size
                             /\ (total + size <= maxSizeBytes options)%Z) files) as Hnext.
    { intros total1 storage1 Hrun1 Hle1.
      destruct (IH _ _ _ _ Hrun1) as [Hle Hall]. split; [lia|].
      eapply Forall_impl; [exact Hall|]. simpl.
      intros f Hf Hex. destruct (Hf Hex) as (sz & Hstat & Hfit).
      exists sz. split; [exact Hstat | lia]. }
    assert (forall total1 storage1,
              collectFrom folders options files total1 storage1 = Ok (total', storage') ->
              (total <= total1)%Z ->
              (total <= total')%Z
              /\ Forall (fun file =>
                           examined options file = true ->
                           exists size,
                             file_statSize file = Ok size
                             /\ (total + size <= maxSizeBytes options)%Z) (file :: files))
      as Hstep.
    { intros total1 storage1 Hrun1 Hle1.
      destruct (Hnext _ _ Hrun1 Hle1) as [Hle Hall]. split; [exact Hle|].
      constructor; [|exact Hall]. intros _. by exists size. }
    clear IH Hnext.
    destruct (size >? the_maxFileSizeBytes options)%Z.
    { apply (Hstep _ _ Hrun). lia. }
    destruct (prefixWithFolderPrefix folders folder relativePath) as [zipPath|e];
      [|discriminate].
    destruct (the_includeContent options).
    + destruct (file_text file) as [content|]; apply (Hstep _ _ Hrun); lia.
    + apply (Hstep _ _ Hrun). lia.
Qed.

Lemma found_cons folders rootPath sourcePaths files :
  findFiles folders rootPath = Ok files ->
  found folders (rootPath :: sourcePaths) = files ++ found folders sourcePaths.
Proof. intros H. unfold found. simpl. by rewrite H. Qed.

(** What the outer loop adds. *)
Lemma collectRoots_added folders options sourcePaths :
  forall totalSizeBytes storage storage',
    collectRoots folders options sourcePaths totalSizeBytes storage = Ok storage' ->
    exists added,
      storage' = storage ++ added
      /\ Forall (fun item => (fileSizeBytes item <= the_maxFileSizeBytes options)%Z) added
      /\ (the_includeContent options = true ->
          Forall (fun item => is_Some (fileContent item)) added)
      /\ sublist (map fileUri added)
           (map file_fsPath
              (filter (fun file => examined options file = true)
                 (found folders sourcePaths)))
      /\ (the_failOnLimit options = true -> added <> [] ->
          (totalSizeBytes + totalSize added <= maxSizeBytes options)%Z).
Proof.
  induction sourcePaths as [|rootPath sourcePaths IH]; intros total storage storage' Hrun.
  - injection Hrun as <-. exists []. rewrite app_nil_r.
    split; [reflexivity|]. split; [constructor|]. split; [constructor|].
    split; [constructor | congruence].
  - simpl in Hrun.
    destruct (findFiles folders rootPath) as [files|e] eqn:Hfiles; [|discriminate].
    destruct (collectFrom folders options files total storage) as [[total1 storage1]|e]
      eqn:Hinner; [|discriminate].
    apply collectFrom_added in Hinner
      as (added1 & -> & -> & Hsize1 & Hcontent1 & Hsub1 & Hlimit1).
    apply IH in Hrun as (added2 & -> & Hsize2 & Hcontent2 & Hsub2 & Hlimit2).
    exists (added1 ++ added2).
    split; [by rewrite app_assoc|].
    split; [by apply Forall_app|].
    split; [intros Hinc; apply Forall_app; auto|].
    split.
    + rewrite (found_cons _ _ _ _ Hfiles), filter_app, !map_app.
      by apply sublist_app.
    + intros Hfail Hadded. rewrite totalSize_app.
      destruct added2 as [|item added2].
      * rewrite app_nil_r in Hadded. specialize (Hlimit1 Hfail Hadded).
        unfold totalSize at 2. simpl. lia.
      * assert (item :: added2 <> []) as Hne by discriminate.
        specialize (Hlimit2 Hfail Hne). lia.
Qed.

(** What the outer loop has examined. *)
Lemma collectRoots_examined folders options sourcePaths :
  the_failOnLimit options = true ->
  Forall (fun file => forall size, file_statSize file = Ok size -> (0 <= size)%Z)
    (found folders sourcePaths) ->
  forall totalSizeBytes storage storage',
    collectRoots folders options sourcePaths totalSizeBytes storage = Ok storage' ->
    Forall (fun rootPath => exists files, findFiles folders rootPath = Ok files) sourcePaths
    /\ Forall (fun file =>
                 examined options file = true ->
                 exists size,
                   file_statSize file = Ok size
                   /\ (totalSizeBytes + size <= maxSizeBytes options)%Z)
         (found folders sourcePaths).
Proof.
  intros Hfail. induction sourcePaths as [|rootPath sourcePaths IH];
    intros Hsizes total storage storage' Hrun.
  - split; constructor.
  - simpl in Hrun.
    destruct (findFiles folders rootPath) as [files|e] eqn:Hfiles; [|discriminate].
    rewrite (found_cons _ _ _ _ Hfiles) in Hsizes |- *.
    apply Forall_app in Hsizes as [Hsizes1 Hsizes2].
    destruct (collectFrom folders options files total storage) as [[total1 storage1]|e]
      eqn:Hinner; [|discriminate].
    apply (collectFrom_examined _ _ _ Hfail Hsizes1) in Hinner as [Hle Hall1].
    destruct (IH Hsizes2 _ _ _ Hrun) as [Hfound Hall2].
    split; [constructor; [by exists files | exact Hfound]|].
    apply Forall_app. split; [exact Hall1|].
    eapply Forall_impl; [exact Hall2|]. simpl.
    intros f Hf Hex. destruct (Hf Hex) as (sz & Hstat & Hfit).
    exists sz. split; [exact Hstat | lia].
Qed.

(** X22: what [collectFiles] returns is within the limits it was
    given: every item is at most [maxFileSizeBytes] in size; the items
    together are at most [maxTotalSizeBytes] when the limit is to fail, as
    it is by default; every item has its content when the content is to be
    included; and the items are files that were found and examined, in the
    order in which they were found. *)
Theorem collectFiles_within_limits folders options sourcePaths storage :
  collectFiles folders options sourcePaths = Ok storage ->
  Forall (fun item => (fileSizeBytes item <= the_maxFileSizeBytes options)%Z) storage
  /\ (the_failOnLimit options = true -> storage <> [] ->
      (totalSize storage <= maxSizeBytes options)%Z)
  /\ (the_includeContent options = true ->
      Forall (fun item => is_Some (fileContent item)) storage)
  /\ sublist (map fileUri storage)
       (map file_fsPath
          (filter (fun file => examined options file = true)
             (found folders sourcePaths))).
Proof.
  unfold collectFiles. intros Hrun.
  apply collectRoots_added in Hrun as (added & -> & Hsize & Hcontent & Hsub & Hlimit).
  simpl. split; [exact Hsize|]. split; [|by split].
  intros Hfail Hne. specialize (Hlimit Hfail Hne). lia.
Qed.

Lemma collectFiles_within_limits_witness :
  Forall (fun item => (fileSizeBytes item <= 50)%Z)
    [mkCollectFilesResultItem "w" "a.ts" "/w/a.ts" (Some "let a = 1") 10 "a.ts"]
  /\ (true = true ->
      [mkCollectFilesResultItem "w" "a.ts" "/w/a.ts" (Some "let a = 1") 10 "a.ts"] <> [] ->
      (10 + 0 <= 100)%Z)
  /\ (true = true ->
      Forall (fun item => is_Some (fileContent item))
        [mkCollectFilesResultItem "w" "a.ts" "/w/a.ts" (Some "let a = 1") 10 "a.ts"])
  /\ sublist ["/w/a.ts"] ["/w/a.ts"; "/w/big.bin"; "/w/locked"].
Proof.
  apply (collectFiles_within_limits sampleFolders sampleOptions ["/w"]
           [mkCollectFilesResultItem "w" "a.ts" "/w/a.ts" (Some "let a = 1") 10 "a.ts"]).
  reflexivity.
Defined.

(** X23: the total limit is checked on every file that is examined,
    before the file is skipped for its own size or for its content.  So,
    where sizes are not negative, [collectFiles] returns only if every
    source path could be listed and every examined file has a size, and that
    size is at most [maxTotalSizeBytes], also for the files that are left
    out of the result. *)
Theorem collectFiles_checks_limit_before_skipping folders options sourcePaths storage :
  collectFiles folders options sourcePaths = Ok storage ->
  the_failOnLimit options = true ->
  Forall (fun file => forall size, file_statSize file = Ok size -> (0 <= size)%Z)
    (found folders sourcePaths) ->
  Forall (fun rootPath => exists files, findFiles folders rootPath = Ok files) sourcePaths
  /\ Forall (fun file =>
               examined options file = true ->
               exists size,
                 file_statSize file = Ok size /\ (size <= maxSizeBytes options)%Z)
       (found folders sourcePaths).
Proof.
  unfold collectFiles. intros Hrun Hfail Hsizes.
  destruct (collectRoots_examined _ _ _ Hfail Hsizes _ _ _ Hrun) as [Hfound Hall].
  split; [exact Hfound|].
  eapply Forall_impl; [exact Hall|]. simpl.
  intros f Hf Hex. destruct (Hf Hex) as (sz & Hstat & Hfit). exists sz. by split.
Qed.

Lemma collectFiles_checks_limit_before_skipping_witness :
  Forall (fun rootPath => exists files, findFiles sampleFolders rootPath = Ok files) ["/w"]
  /\ Forall (fun file =>
               examined sampleOptions file = true ->
               exists size,
                 file_statSize file = Ok size /\ (size <= maxSizeBytes sampleOptions)%Z)
       (found sampleFolders ["/w"]).
Proof.
  apply (collectFiles_checks_limit_before_skipping sampleFolders sampleOptions ["/w"]
           [mkCollectFilesResultItem "w" "a.ts" "/w/a.ts" (Some "let a = 1") 10 "a.ts"]).
  - reflexivity.
  - reflexivity.
  - repeat constructor; intros size [= <-]; lia.
Defined.

(** A file above both limits is not skipped: it fails the collection. *)
Example collectFiles_large_file_fails :
  collectFiles
    {| findFiles := fun _ =>
         Ok [ {| file_fsPath := "/w/huge.bin"; file_relativePath := Some ("w", "huge.bin");
                 file_statSize := Ok 200%Z; file_text := Some "" |} ];
       workspaceToPrefix := workspaceToPrefix sampleFolders |}
    sampleOptions ["/w"]
  = Throw contentLengthError.
Proof. reflexivity. Qed.

End WorkspaceTheorems.
